(** * Country Currency & Exchange API: refresh pipeline and query surface

    A shallow embedding of [main.py].  JSON payloads are kept dynamically
    typed, as Python sees them after [response.json()]; Python exceptions are
    explicit results; the document store, the clock and the random generator
    are explicit state.  A float is the rational it denotes, and arithmetic
    rounds to the nearest double as IEEE 754 does (module [Float64]); the
    rationals [2^1024] and [-2^1024] stand for the infinities; NaN and the
    sign of zero are not represented. *)

From Stdlib Require Import String Ascii List ZArith QArith Qreduction Qround
  Qpower Qabs Bool Lia Lqa Sorted.
From Stdlib Require SpecFloat.
Import ListNotations.
Local Open Scope string_scope.
Local Open Scope list_scope.

(** ** JSON values, as produced by [response.json()] *)

#[warnings="-register-all"]
Inductive json : Type :=
| JNull
| JBool (b : bool)
| JInt (n : Z)
| JFloat (x : Q)
| JStr (s : string)
| JArr (items : list json)
| JObj (members : list (string * json)).

(** The members of a parsed object are the items of a Python dict: keys are
    distinct, and the first binding of a key is the one found. *)
Fixpoint dict_lookup (k : string) (d : list (string * json)) : option json :=
  match d with
  | [] => None
  | (k', v) :: d' => if String.eqb k k' then Some v else dict_lookup k d'
  end.

(** ** Exceptions *)

Inductive py_error : Type :=
| AttributeError
| TypeError
| KeyError
| IndexError
| ZeroDivisionError
| OverflowError
| JSONDecodeError
| OperationFailure
| OSError.

(** The ["details"] entry of an error body: the cause reported by the HTTP
    client, or [str(e)] of a caught exception. *)
Inductive error_details : Type :=
| Cause (prefix cause : string)
| ExceptionText (e : py_error).

Record http_detail : Type := mk_detail {
  error : string;
  details : option error_details
}.

Inductive exn : Type :=
| HTTPException (status_code : Z) (detail : http_detail)
| PyError (e : py_error).

Inductive result (A : Type) : Type :=
| Ok (a : A)
| Raise (e : exn).
Arguments Ok {A} a.
Arguments Raise {A} e.

(** ** Double-precision arithmetic

    The value of a finite double is a rational [m * 2^k] with [|m| < 2^53]
    and [-1074 <= k]; an operation returns the double nearest to the exact
    result, ties going to the even significand, and [inf] when that is
    [2^1024] or more.  The rational [2^1024], one binade above the largest
    double, stands for [inf], and its opposite for [-inf] (as an operand,
    so does every rational of that magnitude or more): the order of the
    rationals is then the order of the floats. *)

Module Float64.

(** [2^k] *)
Definition pow2 (k : Z) : Q := Qpower 2 k.

(** For [a > 0], the exponent [e] with [2^e <= a < 2^(e+1)]. *)
Definition ilog2 (a : Q) : Z :=
  let e := (Z.log2 (Qnum a) - Z.log2 (Zpos (Qden a)))%Z in
  if Qle_bool (pow2 e) a then e else (e - 1)%Z.

(** The integer nearest to [x], the even one of two. *)
Definition rne (x : Q) : Z :=
  let f := Qfloor x in
  match Qcompare (x - inject_Z f) (1 # 2) with
  | Lt => f
  | Gt => (f + 1)%Z
  | Eq => if Z.even f then f else (f + 1)%Z
  end.

(** For [a > 0], the nearest multiple of the unit in the last place of [a]:
    53 significant bits, and no unit below [2^-1074]. *)
Definition round_pos (a : Q) : Q :=
  let k := Z.max (ilog2 a - 52) (-1074) in
  (inject_Z (rne (a / pow2 k)) * pow2 k)%Q.

Definition infinity : Q := pow2 1024.

Definition clamp (v : Q) : Q := if Qle_bool infinity v then infinity else v.

(** The double nearest to [q], in lowest terms. *)
Definition round64 (q : Q) : Q :=
  Qred match Qcompare q 0 with
       | Eq => 0
       | Gt => clamp (round_pos q)
       | Lt => - clamp (round_pos (- q))
       end.

Definition is_inf (x : Q) : bool := Qle_bool infinity (Qabs x).

Definition signed_infinity (negative : bool) : Q :=
  if negative then - infinity else infinity.

Definition is_negative (x : Q) : bool := negb (Qle_bool 0 x).

(** [x + y].  [inf + -inf] is NaN in Python; here it is 0. *)
Definition add (x y : Q) : Q :=
  if is_inf x
  then if is_inf y && negb (Bool.eqb (is_negative x) (is_negative y)) then 0
       else signed_infinity (is_negative x)
  else if is_inf y then signed_infinity (is_negative y)
  else round64 (x + y).

(** [x * y].  [inf * 0] is NaN in Python; here it is 0. *)
Definition mul (x y : Q) : Q :=
  if is_inf x || is_inf y
  then if Qeq_bool (x * y) 0 then 0
       else signed_infinity (is_negative (x * y))
  else round64 (x * y).

(** [x / y] for [y <> 0].  [inf / inf] is NaN in Python; here it is 0. *)
Definition div (x y : Q) : Q :=
  if is_inf y then 0
  else if is_inf x then signed_infinity (is_negative (x / y))
  else round64 (x / y).

(** The integers without a nearest double are those of magnitude
    [2^1024 - 2^970] or more. *)
Definition int_overflow : Z := (2 ^ 1024 - 2 ^ 970)%Z.

(** The value of a double of the standard library's specification of
    IEEE 754, and the double nearest to an integer there; they serve to
    compare the operations above with that specification. *)
Definition of_ieee (f : SpecFloat.spec_float) : Q :=
  match f with
  | SpecFloat.S754_zero _ => 0
  | SpecFloat.S754_infinity s => if s then - infinity else infinity
  | SpecFloat.S754_nan => 0
  | SpecFloat.S754_finite s m e =>
      Qred ((if s then - 1 else 1) * inject_Z (Zpos m) * pow2 e)
  end.

Definition ieee (n : Z) : SpecFloat.spec_float :=
  SpecFloat.binary_normalize 53 1024 n 0 false.

End Float64.

(** ** The fragment of Python's dynamic semantics that [main.py] relies on *)

Module Py.

Definition as_number (v : json) : option Q :=
  match v with
  | JBool b => Some (if b then 1%Q else 0%Q)
  | JInt n => Some (inject_Z n)
  | JFloat x => Some x
  | _ => None
  end.

(** [bool(v)] *)
Definition truthy (v : json) : bool :=
  match v with
  | JNull => false
  | JBool b => b
  | JInt n => negb (n =? 0)%Z
  | JFloat x => negb (Qeq_bool x 0)
  | JStr s => negb (String.eqb s "")
  | JArr l => match l with [] => false | _ :: _ => true end
  | JObj d => match d with [] => false | _ :: _ => true end
  end.

(** [a == b] *)
Fixpoint eq (a b : json) {struct a} : bool :=
  match a, b with
  | JNull, JNull => true
  | JStr s, JStr t => String.eqb s t
  | JArr l, JArr m =>
      (fix go (l m : list json) : bool :=
         match l, m with
         | [], [] => true
         | x :: l', y :: m' => eq x y && go l' m'
         | _, _ => false
         end) l m
  | JObj d, JObj e =>
      Nat.eqb (length d) (length e) &&
      (fix go (d : list (string * json)) : bool :=
         match d with
         | [] => true
         | (k, v) :: d' =>
             match dict_lookup k e with
             | Some w => eq v w
             | None => false
             end && go d'
         end) d
  | _, _ =>
      match as_number a, as_number b with
      | Some x, Some y => Qeq_bool x y
      | _, _ => false
      end
  end.

(** [len(v)]; of a string, its bytes here: the code only asks whether the
    length is positive. *)
Definition len (v : json) : result nat :=
  match v with
  | JStr s => Ok (String.length s)
  | JArr l => Ok (List.length l)
  | JObj d => Ok (List.length d)
  | _ => Raise (PyError TypeError)
  end.

(** [v.get(key, default)]: only a dict has the method. *)
Definition get (v : json) (key : string) (default : json) : result json :=
  match v with
  | JObj d =>
      Ok (match dict_lookup key d with Some x => x | None => default end)
  | _ => Raise (PyError AttributeError)
  end.

Fixpoint is_prefix (p s : string) : bool :=
  match p, s with
  | EmptyString, _ => true
  | String a p', String b s' => Ascii.eqb a b && is_prefix p' s'
  | String _ _, EmptyString => false
  end.

Fixpoint is_substring (p s : string) : bool :=
  is_prefix p s ||
  match s with
  | EmptyString => false
  | String _ s' => is_substring p s'
  end.

(** [x in container] *)
Definition contains (x container : json) : result bool :=
  match container with
  | JObj d =>
      match x with
      | JArr _ | JObj _ => Raise (PyError TypeError)
      | JStr s =>
          Ok (match dict_lookup s d with Some _ => true | None => false end)
      | _ => Ok false
      end
  | JArr l => Ok (existsb (eq x) l)
  | JStr t =>
      match x with
      | JStr s => Ok (is_substring s t)
      | _ => Raise (PyError TypeError)
      end
  | _ => Raise (PyError TypeError)
  end.

Definition list_index (l : list json) (i : Z) : result json :=
  let n := Z.of_nat (List.length l) in
  let j := if (i <? 0)%Z then (i + n)%Z else i in
  if ((0 <=? j) && (j <? n))%Z
  then match nth_error l (Z.to_nat j) with
       | Some v => Ok v
       | None => Raise (PyError IndexError)
       end
  else Raise (PyError IndexError).

(** The one-character strings of a string (one per byte here; the code
    never looks inside them). *)
Definition chars (t : string) : list json :=
  map (fun c => JStr (String c "")) (list_ascii_of_string t).

(** [container[key]] *)
Definition getitem (container key : json) : result json :=
  match container with
  | JObj d =>
      match key with
      | JArr _ | JObj _ => Raise (PyError TypeError)
      | JStr s =>
          match dict_lookup s d with
          | Some v => Ok v
          | None => Raise (PyError KeyError)
          end
      | _ => Raise (PyError KeyError)
      end
  | JArr l =>
      match key with
      | JInt i => list_index l i
      | JBool b => list_index l (if b then 1 else 0)%Z
      | _ => Raise (PyError TypeError)
      end
  | JStr t =>
      match key with
      | JInt i => list_index (chars t) i
      | JBool b => list_index (chars t) (if b then 1 else 0)%Z
      | _ => Raise (PyError TypeError)
      end
  | _ => Raise (PyError TypeError)
  end.

(** The float that [*] and [/] make of an operand when the other one is a
    float: an [int] is rounded to the nearest double, and refused with
    [OverflowError] when that is no finite one. *)
Definition to_float (v : json) : result Q :=
  match v with
  | JBool b => Ok (if b then 1%Q else 0%Q)
  | JInt n =>
      let x := Float64.round64 (inject_Z n) in
      if Float64.is_inf x then Raise (PyError OverflowError) else Ok x
  | JFloat x => Ok x
  | _ => Raise (PyError TypeError)
  end.

(** [a * m] for a float [m] *)
Definition mul_float (a : json) (m : Q) : result Q :=
  match to_float a with
  | Ok x => Ok (Float64.mul x m)
  | Raise e => Raise e
  end.

(** [x / b] for a float [x] *)
Definition truediv (x : Q) (b : json) : result Q :=
  match to_float b with
  | Ok y =>
      if Qeq_bool y 0 then Raise (PyError ZeroDivisionError)
      else Ok (Float64.div x y)
  | Raise e => Raise e
  end.

(** The elements a [for] loop visits. *)
Definition iter (v : json) : result (list json) :=
  match v with
  | JArr l => Ok l
  | JObj d => Ok (map (fun kv => JStr (fst kv)) d)
  | JStr s => Ok (chars s)
  | _ => Raise (PyError TypeError)
  end.

End Py.

(** ** Data model *)

(** [datetime.utcnow()] readings, as microseconds since the epoch. *)
Definition timestamp : Type := Z.

(** The document built for one country (the dict [country_doc]). *)
Record country_doc : Type := mk_country_doc {
  name : json;
  capital : json;
  region : json;
  population : json;
  currency_code : json;
  exchange_rate : json;
  estimated_gdp : json;
  flag_url : json;
  last_refreshed_at : timestamp
}.

(** A document of [db.countries]: the store's [_id] and the fields set by
    the refresh, the only writer of the collection. *)
Record stored : Type := mk_stored {
  oid : nat;
  doc : country_doc
}.

(** What [cache/summary.png] shows. *)
Record summary : Type := mk_summary {
  shown_total : nat;
  shown_timestamp : timestamp;
  shown_top : list country_doc
}.

(** The state the service works on: both collections ([db.metadata] holds at
    most the document ["global"]), the artifact file, and how often the clock
    and the random generator have been consulted. *)
Record world : Type := mk_world {
  countries_collection : list stored;
  metadata_global : option timestamp;
  next_oid : nat;
  summary_png : option summary;
  clock_reads : nat;
  uniform_draws : nat
}.

(** The outcome of [client.get(url)] followed by [raise_for_status()] and
    [response.json()]: an [httpx.HTTPError], or a response whose body is JSON
    ([Some]) or is not ([None]). *)
Inductive http_outcome : Type :=
| HTTPError (cause : string)
| Body (parsed : option json).

(** What one request to the service meets outside of it: the two sources,
    the clock, the random generator ([random.random()], a float in
    [[0.0, 1.0)]), and what comes of drawing a summary with Pillow and
    saving it as [cache/summary.png]: nothing ([None]), or the exception
    raised. *)
Record env : Type := mk_env {
  restcountries : http_outcome;
  open_er_api : http_outcome;
  utcnow : nat -> timestamp;
  random_random : nat -> Q;
  rendering : summary -> option py_error
}.

(** ** External collaborators, taken as interfaces *)

(** The store's [$regex] operator with [$options: "i"]: a pattern is compiled
    to a predicate on strings, or rejected. *)
Class RegexEngine : Type := {
  regex_i : string -> option (string -> bool)
}.

(** [str(v)] for the values that are neither a string nor [None]. *)
Class PyRepr : Type := {
  repr : json -> string
}.

Inductive sort_field : Type := by_estimated_gdp | by_population.

(** [cursor.sort([(field, direction)])]; the store fixes the order of ties. *)
Class CursorSort : Type := {
  cursor_sort : sort_field -> Z -> list stored -> list stored
}.

(** ** Computations that change the world and may raise *)

Definition M (A : Type) : Type := world -> world * result A.

Definition ret {A} (a : A) : M A := fun w => (w, Ok a).

Definition bind {A B} (c : M A) (k : A -> M B) : M B :=
  fun w =>
    match c w with
    | (w', Ok a) => k a w'
    | (w', Raise e) => (w', Raise e)
    end.

Definition lift {A} (r : result A) : M A := fun w => (w, r).

Declare Scope py_scope.
Delimit Scope py_scope with py.
Notation "x <- c ;; k" := (bind c (fun x => k))
  (at level 61, c at next level, right associativity) : py_scope.
Notation "c ;;; k" := (bind c (fun _ => k))
  (at level 61, right associativity) : py_scope.
Local Open Scope py_scope.

(** ** Source clients *)

Definition unavailable (provider cause : string) : exn :=
  HTTPException 503
    (mk_detail "External data source unavailable"
       (Some (Cause ("Could not fetch data from " ++ provider ++ ": ") cause))).

Definition fetch_countries_data (e : env) : result json :=
  match restcountries e with
  | HTTPError cause => Raise (unavailable "restcountries.com" cause)
  | Body None => Raise (PyError JSONDecodeError)
  | Body (Some data) => Ok data
  end.

Definition fetch_exchange_rates (e : env) : result json :=
  match open_er_api e with
  | HTTPError cause => Raise (unavailable "open.er-api.com" cause)
  | Body None => Raise (PyError JSONDecodeError)
  | Body (Some data) => Py.get data "rates" (JObj [])
  end.

(** ** Merge and derivation *)

(** The world after one draw of the random generator. *)
Definition drawn (w : world) : world :=
  mk_world (countries_collection w) (metadata_global w) (next_oid w)
    (summary_png w) (clock_reads w) (S (uniform_draws w)).

(** [random.uniform(a, b)] is [a + (b - a) * random()]. *)
Definition uniform (a b : Z) (random : Q) : Q :=
  Float64.add (inject_Z a) (Float64.mul (inject_Z (b - a)) random).

(** The multiplier that the next draw gives. *)
Definition next_multiplier (e : env) (w : world) : Q :=
  uniform 1000 2000 (random_random e (uniform_draws w)).

(** [random.uniform(1000, 2000)] *)
Definition random_uniform (e : env) : M Q :=
  fun w => (drawn w, Ok (next_multiplier e w)).

Definition is_none (v : json) : bool :=
  match v with JNull => true | _ => false end.

Definition calculate_estimated_gdp (e : env) (population exchange_rate : json)
  : M json :=
  if is_none exchange_rate || Py.eq exchange_rate (JInt 0) then ret JNull
  else
    random_multiplier <- random_uniform e ;;
    scaled <- lift (Py.mul_float population random_multiplier) ;;
    gdp <- lift (Py.truediv scaled exchange_rate) ;;
    ret (JFloat gdp).

(** The loop body of [refresh_countries], first part: [currency_code],
    [exchange_rate] and [estimated_gdp] of one country. *)
Definition derive_currency_fields (e : env) (exchange_rates : json)
    (country_data : json) : M (json * json * json) :=
  currencies <- lift (Py.get country_data "currencies" (JArr [])) ;;
  nonempty <-
    (if Py.truthy currencies
     then n <- lift (Py.len currencies) ;; ret (0 <? n)%nat
     else ret false) ;;
  if nonempty : bool
  then
    first <- lift (Py.getitem currencies (JInt 0)) ;;
    currency_code <- lift (Py.get first "code" JNull) ;;
    mapped <-
      (if Py.truthy currency_code
       then lift (Py.contains currency_code exchange_rates)
       else ret false) ;;
    if mapped : bool
    then
      exchange_rate <- lift (Py.getitem exchange_rates currency_code) ;;
      population <- lift (Py.get country_data "population" (JInt 0)) ;;
      estimated_gdp <- calculate_estimated_gdp e population exchange_rate ;;
      ret (currency_code, exchange_rate, estimated_gdp)
    else ret (currency_code, JNull, JInt 0)
  else ret (JNull, JNull, JInt 0).

(** The loop body, second part: the dict [country_doc]. *)
Definition build_country_doc (e : env) (exchange_rates : json)
    (refresh_timestamp : timestamp) (country_data : json) : M country_doc :=
  derived <- derive_currency_fields e exchange_rates country_data ;;
  let '(currency_code, exchange_rate, estimated_gdp) := derived in
  name <- lift (Py.get country_data "name" JNull) ;;
  capital <- lift (Py.get country_data "capital" JNull) ;;
  region <- lift (Py.get country_data "region" JNull) ;;
  population <- lift (Py.get country_data "population" (JInt 0)) ;;
  flag <- lift (Py.get country_data "flag" JNull) ;;
  ret (mk_country_doc name capital region population currency_code
         exchange_rate estimated_gdp flag refresh_timestamp).

(** ** The document store *)

(** A [$regex] condition holds of a string field, and of an array field one
    of whose elements is a string it holds of. *)
Definition field_matches (m : string -> bool) (v : json) : bool :=
  match v with
  | JStr s => m s
  | JArr l => existsb (fun x => match x with JStr s => m s | _ => false end) l
  | _ => false
  end.

(** [{"$regex": f"^{text}$", "$options": "i"}] *)
Definition anchored (text : string) : string := "^" ++ text ++ "$".

(** [f"{v}"] *)
Definition format_value `{PyRepr} (v : json) : string :=
  match v with
  | JStr s => s
  | JNull => "None"
  | _ => repr v
  end.

Definition stored_name (s : stored) : json := name (doc s).
Definition stored_region (s : stored) : json := region (doc s).
Definition stored_currency_code (s : stored) : json := currency_code (doc s).

(** [$set] on the first document that satisfies the filter. *)
Fixpoint set_first (p : stored -> bool) (d : country_doc) (l : list stored)
  : option (list stored) :=
  match l with
  | [] => None
  | s :: l' =>
      if p s then Some (mk_stored (oid s) d :: l')
      else match set_first p d l' with
           | Some l'' => Some (s :: l'')
           | None => None
           end
  end.

(** [countries_collection.update_one({"name": {"$regex": ...}},
    {"$set": country_doc}, upsert=True)] *)
Definition update_one_upsert `{RegexEngine} (pattern : string) (d : country_doc)
  : M unit :=
  fun w =>
    match regex_i pattern with
    | None => (w, Raise (PyError OperationFailure))
    | Some m =>
        match set_first (fun s => field_matches m (stored_name s)) d
                (countries_collection w) with
        | Some l =>
            (mk_world l (metadata_global w) (next_oid w) (summary_png w)
               (clock_reads w) (uniform_draws w), Ok tt)
        | None =>
            (mk_world (countries_collection w ++ [mk_stored (next_oid w) d])
               (metadata_global w) (S (next_oid w)) (summary_png w)
               (clock_reads w) (uniform_draws w), Ok tt)
        end
    end.

(** [metadata_collection.update_one({"_id": "global"},
    {"$set": {"last_refreshed_at": ...}}, upsert=True)] *)
Definition set_global_marker (t : timestamp) : M unit :=
  fun w =>
    (mk_world (countries_collection w) (Some t) (next_oid w) (summary_png w)
       (clock_reads w) (uniform_draws w), Ok tt).

(** [datetime.utcnow()] *)
Definition read_clock (e : env) : M timestamp :=
  fun w =>
    (mk_world (countries_collection w) (metadata_global w) (next_oid w)
       (summary_png w) (S (clock_reads w)) (uniform_draws w),
     Ok (utcnow e (clock_reads w))).

(** ** The summary artifact *)

Definition gdp_key (c : country_doc) : Q :=
  match Py.as_number (estimated_gdp c) with
  | Some x => x
  | None => 0
  end.

(** [sorted(..., key=..., reverse=True)] is stable: among equal keys the
    earlier element of the input stays first. *)
Fixpoint insert_desc (x : country_doc) (l : list country_doc)
  : list country_doc :=
  match l with
  | [] => [x]
  | y :: l' =>
      if Qle_bool (gdp_key y) (gdp_key x) then x :: y :: l'
      else y :: insert_desc x l'
  end.

Definition sorted_desc (l : list country_doc) : list country_doc :=
  fold_right insert_desc [] l.

Definition has_gdp (c : country_doc) : bool := negb (is_none (estimated_gdp c)).

Definition is_number (v : json) : bool :=
  match Py.as_number v with Some _ => true | None => false end.

(** The selection made by [generate_summary_image]; an [estimated_gdp] that
    is neither [None] nor a number cannot be both ordered against the others
    and formatted with [:,.2f], so the function raises ([TypeError] stands
    for whichever exception it is). *)
Definition top_countries (countries : list country_doc)
  : result (list country_doc) :=
  let with_gdp := filter has_gdp countries in
  if forallb (fun c => is_number (estimated_gdp c)) with_gdp
  then Ok (firstn 5 (sorted_desc with_gdp))
  else Raise (PyError TypeError).

(** The canvas, the fonts, the lines of text, [os.makedirs] and [img.save]
    can fail for reasons outside the program; the exception is reported once
    the selection is made, and the file is then taken to be as it was. *)
Definition generate_summary_image (e : env) (countries : list country_doc)
    (t : timestamp) : M unit :=
  top <- lift (top_countries countries) ;;
  fun w =>
    match rendering e (mk_summary (length countries) t top) with
    | Some failure => (w, Raise (PyError failure))
    | None =>
        (mk_world (countries_collection w) (metadata_global w) (next_oid w)
           (Some (mk_summary (length countries) t top))
           (clock_reads w) (uniform_draws w), Ok tt)
    end.

(** ** Refresh orchestrator *)

Record refresh_response : Type := mk_refresh_response {
  total_countries : nat;
  response_timestamp : timestamp
}.

(** The [for] loop of [refresh_countries]; it returns [processed_countries]. *)
Fixpoint refresh_loop `{RegexEngine} `{PyRepr} (e : env) (exchange_rates : json)
    (refresh_timestamp : timestamp) (countries_data : list json)
    (processed_countries : list country_doc) : M (list country_doc) :=
  match countries_data with
  | [] => ret processed_countries
  | country_data :: rest =>
      country_doc <-
        build_country_doc e exchange_rates refresh_timestamp country_data ;;
      key <- lift (Py.get country_data "name" JNull) ;;
      update_one_upsert (anchored (format_value key)) country_doc ;;;
      refresh_loop e exchange_rates refresh_timestamp rest
        (processed_countries ++ [country_doc])
  end.

(** The [try] block. *)
Definition refresh_body `{RegexEngine} `{PyRepr} (e : env)
  : M (list country_doc * refresh_response) :=
  countries_data <- lift (fetch_countries_data e) ;;
  exchange_rates <- lift (fetch_exchange_rates e) ;;
  refresh_timestamp <- read_clock e ;;
  items <- lift (Py.iter countries_data) ;;
  processed_countries <-
    refresh_loop e exchange_rates refresh_timestamp items [] ;;
  set_global_marker refresh_timestamp ;;;
  generate_summary_image e processed_countries refresh_timestamp ;;;
  ret (processed_countries,
       mk_refresh_response (length processed_countries) refresh_timestamp).

(** The [except] clauses: an [HTTPException] passes, anything else becomes
    a 500 that carries [str(e)]. *)
Definition internal_error (e : py_error) : exn :=
  HTTPException 500
    (mk_detail "Internal server error" (Some (ExceptionText e))).

Definition refresh_countries `{RegexEngine} `{PyRepr} (e : env)
  : M refresh_response :=
  fun w =>
    match refresh_body e w with
    | (w', Ok (_, r)) => (w', Ok r)
    | (w', Raise (HTTPException s d)) => (w', Raise (HTTPException s d))
    | (w', Raise (PyError x)) => (w', Raise (internal_error x))
    end.

(** ** Query surface *)

Definition not_found : exn :=
  HTTPException 404 (mk_detail "Country not found" None).

Definition opaque_internal_error : exn :=
  HTTPException 500 (mk_detail "Internal server error" None).

(** [find_one(filter)]: the first match in the store's order. *)
Definition get_country `{RegexEngine} (name : string) (w : world)
  : result stored :=
  match regex_i (anchored name) with
  | None => Raise opaque_internal_error
  | Some m =>
      match find (fun s => field_matches m (stored_name s))
              (countries_collection w) with
      | Some country => Ok country
      | None => Raise not_found
      end
  end.

(** One entry of [query], present when the parameter is a non-empty string:
    the compiled pattern applied to the field.  The outer [None] is a
    pattern the store rejects. *)
Definition condition `{RegexEngine} (field : stored -> json)
    (param : option string) : option (option (stored -> bool)) :=
  match param with
  | Some text =>
      if String.eqb text "" then Some None
      else match regex_i (anchored text) with
           | Some m => Some (Some (fun s => field_matches m (field s)))
           | None => None
           end
  | None => Some None
  end.

Definition satisfies (c : option (stored -> bool)) (s : stored) : bool :=
  match c with
  | Some p => p s
  | None => true
  end.

Definition sort_criteria (sort : option string)
  : option (sort_field * Z) :=
  match sort with
  | Some s =>
      if String.eqb s "" then None
      else if String.eqb s "gdp_desc" then Some (by_estimated_gdp, (-1)%Z)
      else if String.eqb s "gdp_asc" then Some (by_estimated_gdp, 1%Z)
      else if String.eqb s "population_desc" then Some (by_population, (-1)%Z)
      else if String.eqb s "population_asc" then Some (by_population, 1%Z)
      else None
  | None => None
  end.

Definition get_countries `{RegexEngine} `{CursorSort}
    (region currency sort : option string) (w : world)
  : result (list stored) :=
  match condition stored_region region,
        condition stored_currency_code currency with
  | Some by_region, Some by_currency =>
      let found :=
        filter (fun s => satisfies by_region s && satisfies by_currency s)
          (countries_collection w) in
      Ok (match sort_criteria sort with
          | Some (field, direction) => cursor_sort field direction found
          | None => found
          end)
  | _, _ => Raise opaque_internal_error
  end.

(** [GET /countries/image]: the artifact, when a refresh has written it. *)
Definition image_not_found : exn :=
  HTTPException 404 (mk_detail "Summary image not found" None).

Definition get_summary_image (w : world) : result summary :=
  match summary_png w with
  | Some image => Ok image
  | None => Raise image_not_found
  end.

(** [delete_one(filter)]: the collection without its first match. *)
Fixpoint delete_first (p : stored -> bool) (l : list stored)
  : option (list stored) :=
  match l with
  | [] => None
  | s :: l' =>
      if p s then Some l'
      else match delete_first p l' with
           | Some l'' => Some (s :: l'')
           | None => None
           end
  end.

(** [DELETE /countries/{name}]; it answers with the message. *)
Definition delete_country `{RegexEngine} (name : string) : M string :=
  fun w =>
    match regex_i (anchored name) with
    | None => (w, Raise opaque_internal_error)
    | Some m =>
        match delete_first (fun s => field_matches m (stored_name s))
                (countries_collection w) with
        | Some l =>
            (mk_world l (metadata_global w) (next_oid w) (summary_png w)
               (clock_reads w) (uniform_draws w),
             Ok ("Country '" ++ name ++ "' deleted successfully")%string)
        | None => (w, Raise not_found)
        end
    end.

(** [GET /status] *)
Record status_response : Type := mk_status_response {
  status_total_countries : nat;
  status_last_refreshed_at : option timestamp
}.

Definition get_status (w : world) : result status_response :=
  Ok (mk_status_response (length (countries_collection w))
        (metadata_global w)).

(** ** A regular-expression engine for running the definitions

    The fragment of PCRE made of literal ASCII characters, [.], [^], [$],
    groups, [|] and the greedy quantifiers [*], [+], [?], searched
    case-insensitively as [$options: "i"] asks.  Every other pattern is
    rejected, as the store rejects a pattern it cannot compile, and a
    subject with a non-ASCII byte matches nothing.  The general statements
    below hold for every engine; this one runs the samples. *)

Module Pcre.

Inductive regex : Type :=
| Eps
| Chr (c : ascii)
| AnyChar
| Bol
| Eol
| Cat (r s : regex)
| Alt (r s : regex)
| Star (r : regex).

Definition lower (c : ascii) : ascii :=
  let n := nat_of_ascii c in
  if ((65 <=? n) && (n <=? 90))%nat then ascii_of_nat (n + 32) else c.

Definition newline : ascii := ascii_of_nat 10.

(** [matches n r rest]: the suffixes left by the ways [r] can match at the
    head of [rest], in a subject of [n] characters. *)
Fixpoint matches (n : nat) (r : regex) (rest : list ascii)
  : list (list ascii) :=
  match r with
  | Eps => [rest]
  | Chr c =>
      match rest with
      | d :: t => if Ascii.eqb (lower c) (lower d) then [t] else []
      | [] => []
      end
  | AnyChar =>
      match rest with
      | d :: t => if Ascii.eqb d newline then [] else [t]
      | [] => []
      end
  | Bol => if Nat.eqb (length rest) n then [rest] else []
  | Eol =>
      match rest with
      | [] => [rest]
      | [d] => if Ascii.eqb d newline then [rest] else []
      | _ => []
      end
  | Cat a b => flat_map (fun t => matches n b t) (matches n a rest)
  | Alt a b => matches n a rest ++ matches n b rest
  | Star a =>
      (fix star (fuel : nat) (rest : list ascii) : list (list ascii) :=
         rest ::
         match fuel with
         | O => []
         | S fuel' =>
             flat_map
               (fun t => if (length t <? length rest)%nat
                         then star fuel' t else [])
               (matches n a rest)
         end) (length rest) rest
  end.

Definition nonempty {A} (l : list A) : bool :=
  match l with [] => false | _ :: _ => true end.

(** An unanchored search: a match may start at any position. *)
Fixpoint search_from (n : nat) (r : regex) (rest : list ascii) : bool :=
  nonempty (matches n r rest) ||
  match rest with
  | [] => false
  | _ :: t => search_from n r t
  end.

Definition search (r : regex) (subject : string) : bool :=
  let s := list_ascii_of_string subject in
  search_from (length s) r s.

Definition is_quantifier (c : ascii) : bool :=
  Ascii.eqb c "*" || Ascii.eqb c "+" || Ascii.eqb c "?".

(** Characters with a meaning of their own in a pattern. *)
Definition is_special (c : ascii) : bool :=
  existsb (Ascii.eqb c)
    (list_ascii_of_string "\^$.[]|()?*+{}").

(** An item followed by at most one quantifier. *)
Definition quantified (r : regex) (repeatable : bool) (s : list ascii)
  : option (regex * list ascii) :=
  match s with
  | q :: s' =>
      if is_quantifier q then
        if repeatable &&
           negb match s' with
                | q' :: _ => is_quantifier q' || Ascii.eqb q' "{"
                | [] => false
                end
        then Some (if Ascii.eqb q "*" then Star r
                   else if Ascii.eqb q "+" then Cat r (Star r)
                   else Alt r Eps, s')
        else None
      else Some (r, s)
  | [] => Some (r, s)
  end.

Fixpoint parse_alt (fuel : nat) (s : list ascii)
  : option (regex * list ascii) :=
  match fuel with
  | O => None
  | S fuel' =>
      match parse_cat fuel' s with
      | Some (r, c :: s') =>
          if Ascii.eqb c "|"
          then match parse_alt fuel' s' with
               | Some (r', s'') => Some (Alt r r', s'')
               | None => None
               end
          else Some (r, c :: s')
      | other => other
      end
  end
with parse_cat (fuel : nat) (s : list ascii)
  : option (regex * list ascii) :=
  match fuel with
  | O => None
  | S fuel' =>
      match s with
      | [] => Some (Eps, [])
      | c :: _ =>
          if Ascii.eqb c "|" || Ascii.eqb c ")" then Some (Eps, s)
          else match parse_item fuel' s with
               | Some (r, s') =>
                   match parse_cat fuel' s' with
                   | Some (r', s'') => Some (Cat r r', s'')
                   | None => None
                   end
               | None => None
               end
      end
  end
with parse_item (fuel : nat) (s : list ascii)
  : option (regex * list ascii) :=
  match fuel with
  | O => None
  | S fuel' =>
      match s with
      | [] => None
      | c :: s' =>
          if Ascii.eqb c "(" then
            match s' with
            | d :: _ =>
                if is_quantifier d then None
                else match parse_alt fuel' s' with
                     | Some (r, e :: s'') =>
                         if Ascii.eqb e ")" then quantified r true s''
                         else None
                     | _ => None
                     end
            | [] => None
            end
          else if Ascii.eqb c "." then quantified AnyChar true s'
          else if Ascii.eqb c "^" then quantified Bol false s'
          else if Ascii.eqb c "$" then quantified Eol false s'
          else if is_special c then None
          else if (128 <=? nat_of_ascii c)%nat then None
          else quantified (Chr c) true s'
      end
  end.

Definition parse (pattern : string) : option regex :=
  let s := list_ascii_of_string pattern in
  match parse_alt (3 * length s + 3) s with
  | Some (r, []) => Some r
  | _ => None
  end.

Definition ascii_only (s : string) : bool :=
  forallb (fun c => (nat_of_ascii c <? 128)%nat) (list_ascii_of_string s).

Definition compile (pattern : string) : option (string -> bool) :=
  match parse pattern with
  | Some r => Some (fun subject => ascii_only subject && search r subject)
  | None => None
  end.

Definition engine : RegexEngine := {| regex_i := compile |}.

End Pcre.

(** * Vocabulary of the statements *)

(** [exchange_rate is None or exchange_rate == 0] *)
Definition rate_is_zero_or_none (rate : json) : bool :=
  is_none rate || Py.eq rate (JInt 0).

(** The exchange rate of a record is present and non-zero. *)
Definition rate_present_nonzero (d : country_doc) : bool :=
  negb (rate_is_zero_or_none (exchange_rate d)).

Definition is_float (v : json) : bool :=
  match v with JFloat _ => true | _ => false end.

(** The range of [random.uniform(1000, 2000)]: [1000 + 1000 * random()]
    rounded, which can be 2000. *)
Definition multiplier_in_range (u : Q) : Prop := (1000 <= u /\ u <= 2000)%Q.

(** A field copied from the raw record, or its default. *)
Definition copied (c : list (string * json)) (key : string) (default : json)
  : json :=
  match dict_lookup key c with Some x => x | None => default end.


(** An integer that has a nearest double. *)
Definition fits_a_float (n : Z) : bool :=
  negb (Float64.is_inf (Float64.round64 (inject_Z n))).





(** Two worlds that differ at most in the number of random draws. *)
Definition same_store (w w1 : world) : Prop :=
  countries_collection w1 = countries_collection w /\
  metadata_global w1 = metadata_global w /\
  next_oid w1 = next_oid w /\
  summary_png w1 = summary_png w /\
  clock_reads w1 = clock_reads w.

Definition preserves_store {A} (c : M A) : Prop :=
  forall w w1 r, c w = (w1, r) -> same_store w w1.

(** From [w] to [w1] the clock was not read, the marker and the artifact
    were not touched, and every document of the collection is a document of
    [w] or carries the timestamp [t]. *)
Definition writes_only_stamped (t : timestamp) (w w1 : world) : Prop :=
  clock_reads w1 = clock_reads w /\
  metadata_global w1 = metadata_global w /\
  summary_png w1 = summary_png w /\
  forall s, In s (countries_collection w1) ->
            In s (countries_collection w) \/ last_refreshed_at (doc s) = t.





Definition count {A} (f : A -> bool) (l : list A) : nat :=
  length (filter f l).


(** Equality of two texts up to the case of ASCII letters. *)
Fixpoint ci_chars (a b : list ascii) : bool :=
  match a, b with
  | [], [] => true
  | c :: a', d :: b' =>
      Ascii.eqb (Pcre.lower c) (Pcre.lower d) && ci_chars a' b'
  | _, _ => false
  end.

Definition ci_equal (a b : string) : bool :=
  ci_chars (list_ascii_of_string a) (list_ascii_of_string b).

(** A text without pattern metacharacters, in ASCII. *)
Definition plain (c : ascii) : bool :=
  negb (Pcre.is_special c) && (nat_of_ascii c <? 128)%nat.

Definition plain_text (text : string) : bool :=
  forallb plain (list_ascii_of_string text).

(** The pattern that reads [text] character by character, then [tail]. *)
Fixpoint literal (text : list ascii) (tail : Pcre.regex) : Pcre.regex :=
  match text with
  | [] => tail
  | c :: text' => Pcre.Cat (Pcre.Chr c) (literal text' tail)
  end.

(** The world after one reading of the clock. *)
Definition ticked (w : world) : world :=
  mk_world (countries_collection w) (metadata_global w) (next_oid w)
    (summary_png w) (S (clock_reads w)) (uniform_draws w).

(** The world with another collection. *)
Definition with_collection (l : list stored) (w : world) : world :=
  mk_world l (metadata_global w) (next_oid w) (summary_png w)
    (clock_reads w) (uniform_draws w).

(** The world after the marker is written. *)
Definition marked (t : timestamp) (w1 : world) : world :=
  mk_world (countries_collection w1) (Some t) (next_oid w1) (summary_png w1)
    (clock_reads w1) (uniform_draws w1).

(** The world a refresh leaves when it completes from [w1], the world after
    its loop: the marker and the artifact are written. *)
Definition published (t : timestamp) (processed top : list country_doc)
    (w1 : world) : world :=
  mk_world (countries_collection w1) (Some t) (next_oid w1)
    (Some (mk_summary (length processed) t top))
    (clock_reads w1) (uniform_draws w1).

(** The identifiers of the collection are distinct and were all issued. *)
Definition ids_ok (w : world) : Prop :=
  NoDup (map oid (countries_collection w)) /\
  Forall (fun i => (i < next_oid w)%nat) (map oid (countries_collection w)).

(** From [w] to [w1] the identifiers stay distinct and issued, and none is
    lost. *)
Definition keeps_ids (w w1 : world) : Prop :=
  ids_ok w ->
  ids_ok w1 /\
  incl (map oid (countries_collection w)) (map oid (countries_collection w1)).

(** A result that is not an [HTTPException]. *)
Definition py_only {A} (r : result A) : Prop :=
  match r with
  | Raise (HTTPException _ _) => False
  | _ => True
  end.

(** A computation that raises Python exceptions only. *)
Definition raises_only_py {A} (c : M A) : Prop :=
  forall w w1 x, c w = (w1, Raise x) -> exists pe, x = PyError pe.

(** The record was returned by the derivation step. *)
Definition built (e : env) (rates : json) (t : timestamp) (d : country_doc)
  : Prop :=
  exists cd wa wb, build_country_doc e rates t cd wa = (wb, Ok d).

(** An estimate the summary can order and format, or none. *)
Definition null_or_number (v : json) : bool :=
  is_none v || is_number v.

(** The message of a successful deletion. *)
Definition deleted_message (name : string) : string :=
  "Country '" ++ name ++ "' deleted successfully".

(** ** Sample data *)

Module Sample.

Definition e : env :=
  mk_env
    (Body (Some (JArr [])))
    (Body (Some (JObj [("rates", JObj [])])))
    (fun n => (1700000000 + Z.of_nat n)%Z)
    (fun _ => (1 # 2)%Q)
    (fun _ => None).

Definition w : world := mk_world [] None 0 None 0 0.

Definition rates : json :=
  JObj [("USD", JInt 1); ("TST", JFloat 2); ("ZZZ", JInt 0)].

(** A country whose currency code the rates source does not list. *)
Definition atlantis : json :=
  JObj [("name", JStr "Atlantis"); ("population", JInt 5);
        ("currencies", JArr [JObj [("code", JStr "XXX")]])].

Definition atlantis_doc : country_doc :=
  mk_country_doc (JStr "Atlantis") JNull JNull (JInt 5) (JStr "XXX")
    JNull (JInt 0) JNull 0%Z.

(** An environment whose rates source answers without ["rates"]. *)
Definition e_without_rates : env :=
  mk_env
    (Body (Some (JArr [atlantis])))
    (Body (Some (JObj [("result", JStr "error")])))
    (fun n => (1700000000 + Z.of_nat n)%Z)
    (fun _ => (1 # 2)%Q)
    (fun _ => None).

Definition chad : stored :=
  mk_stored 0
    (mk_country_doc (JStr "Chad") (JStr "N'Djamena") (JStr "Africa")
       (JInt 16425859) (JStr "XAF") (JFloat 600) (JFloat 41064647500)
       JNull 1700000000%Z).

Definition korea : stored :=
  mk_stored 1
    (mk_country_doc (JStr "Korea (Republic of)") (JStr "Seoul")
       (JStr "Asia") (JInt 51780579) (JStr "KRW") (JFloat 1300)
       (JFloat 59746821923) JNull 1700000000%Z).

Definition france : stored :=
  mk_stored 2
    (mk_country_doc (JStr "France") (JStr "Paris") (JStr "Europe")
       (JInt 67391582) (JStr "EUR") (JFloat 1) (JFloat 101087373000)
       JNull 1700000000%Z).

(** A store after a refresh. *)
Definition w_store : world :=
  mk_world [chad; korea; france] (Some 1700000000%Z) 3 None 1 3.

Definition testland : json :=
  JObj [("name", JStr "Testland"); ("population", JInt 1000000);
        ("currencies", JArr [JObj [("code", JStr "TST")]])].

Definition testland_doc : country_doc :=
  mk_country_doc (JStr "Testland") JNull JNull (JInt 1000000) (JStr "TST")
    (JFloat 2) (JFloat 750000000) JNull 1700000000%Z.

(** One country, its currency at the rate 2; [random()] gives 0.5, hence
    the multiplier 1500. *)
Definition e_testland : env :=
  mk_env
    (Body (Some (JArr [testland])))
    (Body (Some (JObj [("rates", JObj [("TST", JFloat 2)])])))
    (fun n => (1700000000 + Z.of_nat n)%Z)
    (fun _ => (1 # 2)%Q)
    (fun _ => None).

(** The record of a country without currencies. *)
Definition no_currency (n : string) : country_doc :=
  mk_country_doc (JStr n) JNull JNull (JInt 0) JNull JNull (JInt 0) JNull
    0%Z.



(** A country without a population entry, in a mapped currency. *)
Definition nowhere : json :=
  JObj [("name", JStr "Nowhere");
        ("currencies", JArr [JObj [("code", JStr "TST")]])].

Definition nowhere_doc : country_doc :=
  mk_country_doc (JStr "Nowhere") JNull JNull (JInt 0) (JStr "TST")
    (JFloat 2) (JFloat 0) JNull 0%Z.

(** An environment whose rates source answers with a body that is not
    JSON. *)
Definition e_not_json : env :=
  mk_env
    (Body (Some (JArr [atlantis])))
    (Body None)
    (fun n => (1700000000 + Z.of_nat n)%Z)
    (fun _ => (1 # 2)%Q)
    (fun _ => None).

(** The environment of Testland, where the image cannot be saved. *)
Definition e_read_only : env :=
  mk_env
    (Body (Some (JArr [testland])))
    (Body (Some (JObj [("rates", JObj [("TST", JFloat 2)])])))
    (fun n => (1700000000 + Z.of_nat n)%Z)
    (fun _ => (1 # 2)%Q)
    (fun _ => Some OSError).

(** An environment whose rates source answers with a list. *)
Definition e_rates_list : env :=
  mk_env
    (Body (Some (JArr [atlantis])))
    (Body (Some (JArr [])))
    (fun n => (1700000000 + Z.of_nat n)%Z)
    (fun _ => (1 # 2)%Q)
    (fun _ => None).


(** The record of a raw record without a name. *)
Definition nameless_doc : country_doc :=
  mk_country_doc JNull JNull JNull (JInt 0) JNull JNull (JInt 0) JNull 0%Z.

End Sample.

(** * Properties *)

(** ** Rounding to the nearest double *)

Module Float64_facts.
Import Float64.
Local Open Scope Q_scope.

Lemma pow2_pos k : 0 < pow2 k.
Proof. apply Qpower_0_lt. reflexivity. Qed.

Lemma pow2_add a b : pow2 (a + b) == pow2 a * pow2 b.
Proof. apply Qpower_plus. discriminate. Qed.

Lemma pow2_le a b : (a <= b)%Z -> pow2 a <= pow2 b.
Proof. intros H. apply Qpower_le_compat_l; [exact H | discriminate]. Qed.

Lemma pow2_lt a b : (a < b)%Z -> pow2 a < pow2 b.
Proof. intros H. apply Qpower_lt_compat_l; [exact H | reflexivity]. Qed.

Lemma pow2_Z k : (0 <= k)%Z -> pow2 k == inject_Z (2 ^ k).
Proof. intros H. symmetry. apply (Zpower_Qpower 2 k H). Qed.

Lemma pow2_succ k : pow2 (k + 1) == 2 * pow2 k.
Proof. rewrite pow2_add. change (pow2 1) with 2. ring. Qed.

Lemma ilog2_spec a : 0 < a -> pow2 (ilog2 a) <= a /\ a < pow2 (ilog2 a + 1).
Proof.
  intros Ha. destruct a as [n d].
  assert (Hn : (0 < n)%Z).
  { unfold Qlt in Ha. simpl in Ha. lia. }
  unfold ilog2. cbn [Qnum Qden].
  set (ln := Z.log2 n). set (ld := Z.log2 (Zpos d)).
  assert (Hln : (0 <= ln)%Z) by apply Z.log2_nonneg.
  assert (Hld : (0 <= ld)%Z) by apply Z.log2_nonneg.
  destruct (Z.log2_spec n Hn) as [Hn1 Hn2].
  destruct (Z.log2_spec (Zpos d) eq_refl) as [Hd1 Hd2].
  fold ln in Hn1, Hn2. fold ld in Hd1, Hd2.
  rewrite <- Z.add_1_r in Hn2, Hd2.
  rewrite Zle_Qle in Hn1, Hd1. rewrite Zlt_Qlt in Hn2, Hd2.
  rewrite <- pow2_Z in Hn1, Hn2, Hd1, Hd2 by lia.
  assert (HD : 0 < inject_Z (Zpos d)) by reflexivity.
  assert (Hq : n # d == inject_Z n / inject_Z (Zpos d)) by apply Qmake_Qdiv.
  assert (Hup : n # d < pow2 (ln - ld + 1)).
  { rewrite Hq. apply Qlt_shift_div_r; [exact HD |].
    apply Qlt_le_trans with (pow2 (ln + 1)); [exact Hn2 |].
    replace (ln + 1)%Z with ((ln - ld + 1) + ld)%Z by lia.
    rewrite pow2_add. apply Qmult_le_l; [apply pow2_pos | exact Hd1]. }
  assert (Hlow : pow2 (ln - ld - 1) <= n # d).
  { rewrite Hq. apply Qle_shift_div_l; [exact HD |].
    apply Qle_trans with (pow2 ln); [| exact Hn1].
    replace ln with ((ln - ld - 1) + (ld + 1))%Z at 2 by lia.
    rewrite pow2_add. apply Qmult_le_l; [apply pow2_pos |].
    apply Qlt_le_weak. exact Hd2. }
  destruct (Qle_bool (pow2 (ln - ld)) (n # d)) eqn:Hb.
  - apply Qle_bool_iff in Hb. split; assumption.
  - split; [exact Hlow |].
    replace (ln - ld - 1 + 1)%Z with (ln - ld)%Z by lia.
    apply Qnot_le_lt. intros H. apply Qle_bool_iff in H. congruence.
Qed.

Lemma ilog2_le x y : 0 < x -> x <= y -> (ilog2 x <= ilog2 y)%Z.
Proof.
  intros Hx Hxy.
  assert (Hy : 0 < y) by lra.
  destruct (ilog2_spec x Hx) as [Hx1 _].
  destruct (ilog2_spec y Hy) as [_ Hy2].
  destruct (Z_le_gt_dec (ilog2 x) (ilog2 y)) as [H | H]; [exact H | exfalso].
  assert (Hp : pow2 (ilog2 y + 1) <= pow2 (ilog2 x)) by (apply pow2_le; lia).
  lra.
Qed.

Lemma rne_bounds x : (Qfloor x <= rne x <= Qfloor x + 1)%Z.
Proof.
  unfold rne. destruct (Qcompare _ _); [destruct (Z.even _) | |]; lia.
Qed.

Lemma rne_Z n : rne (inject_Z n) = n.
Proof.
  unfold rne. rewrite Qfloor_Z.
  destruct (Qcompare_spec (inject_Z n - inject_Z n) (1 # 2)) as [H | H | H];
    try reflexivity; exfalso; lra.
Qed.

Lemma rne_le x y : x <= y -> (rne x <= rne y)%Z.
Proof.
  intros Hxy.
  pose proof (Qfloor_resp_le x y Hxy) as Hf.
  pose proof (rne_bounds x) as Bx. pose proof (rne_bounds y) as By.
  destruct (Z.eq_dec (Qfloor x) (Qfloor y)) as [E | NE]; [| lia].
  unfold rne in *. rewrite <- E in *.
  destruct (Qcompare_spec (x - inject_Z (Qfloor x)) (1 # 2)) as [Hx | Hx | Hx];
    destruct (Qcompare_spec (y - inject_Z (Qfloor x)) (1 # 2)) as [Hy | Hy | Hy];
    try destruct (Z.even (Qfloor x)); try lia; exfalso; lra.
Qed.

Lemma rne_nonneg x : 0 <= x -> (0 <= rne x)%Z.
Proof.
  intros H. rewrite <- (rne_Z 0). apply rne_le. exact H.
Qed.

Lemma round_pos_nonneg a : 0 < a -> 0 <= round_pos a.
Proof.
  intros Ha. unfold round_pos.
  apply Qmult_le_0_compat; [| apply Qlt_le_weak, pow2_pos].
  change 0 with (inject_Z 0). rewrite <- Zle_Qle. apply rne_nonneg.
  apply Qle_shift_div_l; [apply pow2_pos | lra].
Qed.

Lemma round_pos_le x y : 0 < x -> x <= y -> round_pos x <= round_pos y.
Proof.
  intros Hx Hxy.
  assert (Hy : 0 < y) by lra.
  pose proof (ilog2_le x y Hx Hxy) as He.
  destruct (ilog2_spec x Hx) as [_ Hx2].
  destruct (ilog2_spec y Hy) as [Hy1 _].
  unfold round_pos.
  set (ex := ilog2 x) in *. set (ey := ilog2 y) in *.
  set (kx := Z.max (ex - 52) (-1074)). set (ky := Z.max (ey - 52) (-1074)).
  assert (Hk : (kx <= ky)%Z) by lia.
  destruct (Z.eq_dec kx ky) as [E | NE].
  - rewrite <- E. apply Qmult_le_compat_r; [| apply Qlt_le_weak, pow2_pos].
    rewrite <- Zle_Qle. apply rne_le.
    apply Qmult_le_compat_r; [exact Hxy |].
    apply Qlt_le_weak, Qinv_lt_0_compat, pow2_pos.
  - assert (Hky : ky = (ey - 52)%Z) by lia.
    assert (Hexy : (ex < ey)%Z) by lia.
    assert (Hkxy : (kx < ey)%Z) by lia.
    apply Qle_trans with (pow2 ey).
    + replace ey with ((ey - kx) + kx)%Z at 1 by lia.
      rewrite pow2_add. apply Qmult_le_compat_r; [| apply Qlt_le_weak, pow2_pos].
      rewrite (pow2_Z (ey - kx)) by lia. rewrite <- Zle_Qle.
      rewrite <- (rne_Z (2 ^ (ey - kx))). apply rne_le.
      rewrite <- (pow2_Z (ey - kx)) by lia.
      apply Qle_shift_div_r; [apply pow2_pos |].
      rewrite <- pow2_add. replace (ey - kx + kx)%Z with ey by lia.
      apply Qle_trans with (pow2 (ex + 1)); [lra | apply pow2_le; lia].
    + replace ey with (52 + ky)%Z at 1 by lia.
      rewrite pow2_add. apply Qmult_le_compat_r; [| apply Qlt_le_weak, pow2_pos].
      rewrite (pow2_Z 52) by lia. rewrite <- Zle_Qle.
      rewrite <- (rne_Z (2 ^ 52)) at 1. apply rne_le.
      rewrite <- (pow2_Z 52) by lia.
      apply Qle_shift_div_l; [apply pow2_pos |].
      rewrite <- pow2_add. replace (52 + ky)%Z with ey by lia. exact Hy1.
Qed.

Lemma clamp_le u v : u <= v -> clamp u <= clamp v.
Proof.
  intros H. unfold clamp.
  destruct (Qle_bool infinity u) eqn:Hu; destruct (Qle_bool infinity v) eqn:Hv;
    try apply Qle_refl.
  - apply Qle_bool_iff in Hu. exfalso.
    assert (Hc : infinity <= v) by lra. apply Qle_bool_iff in Hc. congruence.
  - apply Qnot_lt_le. intros Hc.
    assert (Hd : infinity <= u) by lra. apply Qle_bool_iff in Hd. congruence.
  - exact H.
Qed.

Lemma clamp_nonneg v : 0 <= v -> 0 <= clamp v.
Proof.
  intros H. unfold clamp. destruct (Qle_bool infinity v); [| exact H].
  apply Qlt_le_weak, pow2_pos.
Qed.

Lemma clamp_le_infinity v : clamp v <= infinity.
Proof.
  unfold clamp. destruct (Qle_bool infinity v) eqn:Hv; [apply Qle_refl |].
  apply Qnot_lt_le. intros Hc.
  assert (Hd : infinity <= v) by lra. apply Qle_bool_iff in Hd. congruence.
Qed.

Lemma round64_pos q : 0 < q -> round64 q == clamp (round_pos q).
Proof.
  intros H. unfold round64. rewrite Qred_correct.
  apply Qgt_alt in H. rewrite H. reflexivity.
Qed.

Lemma round64_zero q : q == 0 -> round64 q = 0.
Proof.
  intros H. unfold round64. apply Qeq_alt in H. rewrite H. reflexivity.
Qed.

Lemma round64_nonneg q : 0 <= q -> 0 <= round64 q.
Proof.
  intros H. destruct (Qlt_le_dec 0 q) as [Hp | Hn].
  - rewrite (round64_pos q Hp). apply clamp_nonneg, round_pos_nonneg, Hp.
  - rewrite round64_zero; [apply Qle_refl | lra].
Qed.

Lemma round64_le x y : 0 <= x -> x <= y -> round64 x <= round64 y.
Proof.
  intros Hx Hxy. destruct (Qlt_le_dec 0 x) as [Hp | Hn].
  - rewrite (round64_pos x Hp), (round64_pos y) by lra.
    apply clamp_le, round_pos_le; assumption.
  - rewrite (round64_zero x) by lra. apply round64_nonneg. lra.
Qed.


Lemma round64_le_infinity q : 0 <= q -> round64 q <= infinity.
Proof.
  intros H. destruct (Qlt_le_dec 0 q) as [Hp | Hn].
  - rewrite (round64_pos q Hp). apply clamp_le_infinity.
  - rewrite round64_zero by lra. apply Qlt_le_weak, pow2_pos.
Qed.

Lemma is_inf_false x : 0 <= x -> is_inf x = false <-> x < infinity.
Proof.
  intros Hx. unfold is_inf. rewrite (Qabs_pos x Hx). split.
  - intros H. apply Qnot_le_lt. intros Hc. apply Qle_bool_iff in Hc.
    congruence.
  - intros H. apply not_true_is_false. intros Hc. apply Qle_bool_iff in Hc.
    lra.
Qed.

Lemma is_inf_true x : 0 <= x -> is_inf x = true <-> infinity <= x.
Proof.
  intros Hx. unfold is_inf. rewrite (Qabs_pos x Hx). apply Qle_bool_iff.
Qed.

Lemma mul_finite x y :
  is_inf x = false -> is_inf y = false -> mul x y = round64 (x * y).
Proof. intros Hx Hy. unfold mul. rewrite Hx, Hy. reflexivity. Qed.

Lemma mul_le x u u' :
  0 <= x -> is_inf x = false -> 0 <= u -> u <= u' -> is_inf u' = false ->
  mul x u <= mul x u'.
Proof.
  intros Hx Fx Hu Huu Fu'.
  assert (Fu : is_inf u = false).
  { apply is_inf_false; [exact Hu |].
    apply is_inf_false in Fu'; lra. }
  rewrite !mul_finite by assumption.
  apply round64_le.
  - apply Qmult_le_0_compat; assumption.
  - rewrite (Qmult_comm x u), (Qmult_comm x u').
    apply Qmult_le_compat_r; assumption.
Qed.

Lemma infinity_of_nonneg c :
  0 <= c -> signed_infinity (is_negative c) = infinity.
Proof.
  intros Hc. unfold is_negative. apply Qle_bool_iff in Hc. rewrite Hc.
  reflexivity.
Qed.

Lemma mul_nonneg x u :
  0 <= x -> 0 <= u -> 0 <= mul x u.
Proof.
  intros Hx Hu. unfold mul.
  assert (Hxu : 0 <= x * u) by (apply Qmult_le_0_compat; assumption).
  destruct (is_inf x || is_inf u).
  - destruct (Qeq_bool (x * u) 0); [apply Qle_refl |].
    rewrite (infinity_of_nonneg _ Hxu). apply Qlt_le_weak, pow2_pos.
  - apply round64_nonneg. exact Hxu.
Qed.

Lemma div_le a b r :
  0 <= a -> a <= b -> 0 < r -> is_inf r = false -> div a r <= div b r.
Proof.
  intros Ha Hab Hr Fr. unfold div. rewrite Fr.
  assert (Hi : 0 < / r) by (apply Qinv_lt_0_compat; exact Hr).
  assert (Hq : a / r <= b / r).
  { unfold Qdiv. apply Qmult_le_compat_r; [exact Hab | lra]. }
  assert (Hqa : 0 <= a / r).
  { unfold Qdiv. apply Qmult_le_0_compat; lra. }
  assert (Hinf : forall c, infinity <= c ->
                 signed_infinity (is_negative (c / r)) = infinity).
  { intros c Hc. pose proof (pow2_pos 1024) as Hp. fold infinity in Hp.
    apply infinity_of_nonneg.
    unfold Qdiv. apply Qmult_le_0_compat; lra. }
  destruct (is_inf a) eqn:Fa.
  - apply is_inf_true in Fa; [| exact Ha].
    assert (Fb : is_inf b = true) by (apply is_inf_true; lra).
    rewrite Fb, !Hinf by lra. apply Qle_refl.
  - destruct (is_inf b) eqn:Fb.
    + apply is_inf_true in Fb; [| lra]. rewrite Hinf by exact Fb.
      apply round64_le_infinity. exact Hqa.
    + apply round64_le; assumption.
Qed.

Lemma round64_tiny : round64 (pow2 (-1074)) == pow2 (-1074).
Proof. apply Qeq_bool_iff. vm_compute. reflexivity. Qed.

Lemma div_pos a r :
  1 <= a -> 0 < r -> is_inf r = false -> 0 < div a r.
Proof.
  intros Ha Hr Fr. unfold div. rewrite Fr.
  pose proof (pow2_pos 1024) as Hp. fold infinity in Hp.
  assert (Hi : 0 < / r) by (apply Qinv_lt_0_compat; exact Hr).
  destruct (is_inf a) eqn:Fa.
  - rewrite infinity_of_nonneg; [exact Hp |].
    unfold Qdiv. apply Qmult_le_0_compat; lra.
  - apply is_inf_false in Fr; [| lra].
    apply Qlt_le_trans with (round64 (pow2 (-1074))).
    + rewrite round64_tiny. apply pow2_pos.
    + apply round64_le; [apply Qlt_le_weak, pow2_pos |].
      apply Qle_trans with (pow2 (-1024)); [apply pow2_le; lia |].
      apply Qle_shift_div_l; [exact Hr |].
      apply Qle_trans with (pow2 (-1024) * infinity).
      * apply Qmult_le_l; [apply pow2_pos | lra].
      * unfold infinity. rewrite <- pow2_add. simpl. exact Ha.
Qed.

Lemma round64_Z_small : round64 1 = 1 /\ round64 1000 = 1000.
Proof. split; vm_compute; reflexivity. Qed.

Lemma round64_neg q : q < 0 -> round64 q == - clamp (round_pos (- q)).
Proof.
  intros H. unfold round64. rewrite Qred_correct.
  destruct (Qlt_alt q 0) as [Hlt _]. rewrite (Hlt H). reflexivity.
Qed.

Lemma round64_ge_1 q : 1 <= q -> 1 <= round64 q.
Proof.
  intros H. change 1 with (round64 1) at 1. apply round64_le; lra.
Qed.

Lemma round64_int_nonzero n :
  n <> 0%Z -> Qeq_bool (round64 (inject_Z n)) 0 = false.
Proof.
  intros Hn. apply not_true_is_false. intros Hc. apply Qeq_bool_iff in Hc.
  destruct (Z_lt_le_dec 0 n) as [Hp | Hm].
  - assert (H1 : 1 <= inject_Z n).
    { change 1 with (inject_Z 1). rewrite <- Zle_Qle. lia. }
    apply round64_ge_1 in H1. lra.
  - assert (Hneg : inject_Z n < 0).
    { change 0 with (inject_Z 0). rewrite <- Zlt_Qlt. lia. }
    rewrite (round64_neg _ Hneg) in Hc.
    assert (H1 : 1 <= inject_Z (- n)).
    { change 1 with (inject_Z 1). rewrite <- Zle_Qle. lia. }
    assert (Hpos : 0 < inject_Z (- n)) by lra.
    apply round64_ge_1 in H1. rewrite (round64_pos _ Hpos) in H1.
    change (- inject_Z n) with (inject_Z (- n)) in Hc. lra.
Qed.

Lemma finite_0 : is_inf 0 = false.
Proof. vm_compute. reflexivity. Qed.

Lemma mul_zero_l u : is_inf u = false -> mul 0 u = 0.
Proof.
  intros Hu. unfold mul. rewrite finite_0, Hu. apply round64_zero. ring.
Qed.

Lemma div_zero_l r : ~ r == 0 -> div 0 r = 0.
Proof.
  intros Hr. unfold div. destruct (is_inf r); [reflexivity |].
  rewrite finite_0. apply round64_zero. field. exact Hr.
Qed.

Lemma finite_below u v : 0 <= u -> u <= v -> is_inf v = false -> is_inf u = false.
Proof.
  intros Hu Huv Hv. apply is_inf_false; [exact Hu |].
  apply is_inf_false in Hv; lra.
Qed.

Lemma finite_2000 : is_inf 2000 = false.
Proof. vm_compute. reflexivity. Qed.

Lemma mul_ge_1000 x u :
  1 <= x -> is_inf x = false -> 1000 <= u -> is_inf u = false ->
  1000 <= mul x u.
Proof.
  intros Hx Fx Hu Fu. rewrite mul_finite by assumption.
  change 1000 with (round64 1000) at 1. apply round64_le; [lra |].
  apply Qle_trans with (1 * u); [lra |].
  apply Qmult_le_compat_r; lra.
Qed.

(** The estimate [population * U / rate], in doubles. *)
Lemma estimate_in_range p u r :
  1 <= p -> is_inf p = false ->
  1000 <= u -> u <= 2000 ->
  0 < r -> is_inf r = false ->
  0 < div (mul p u) r /\
  div (mul p 1000) r <= div (mul p u) r /\
  div (mul p u) r <= div (mul p 2000) r.
Proof.
  intros Hp Fp Hlo Hhi Hr Fr.
  assert (Fu : is_inf u = false).
  { apply (finite_below u 2000); [lra | exact Hhi | exact finite_2000]. }
  split; [| split].
  - apply div_pos; [| exact Hr | exact Fr].
    pose proof (mul_ge_1000 p u Hp Fp Hlo Fu). lra.
  - apply div_le; [| | exact Hr | exact Fr].
    + apply mul_nonneg; lra.
    + apply mul_le; try assumption; lra.
  - apply div_le; [| | exact Hr | exact Fr].
    + apply mul_nonneg; lra.
    + apply mul_le; try assumption; [lra | lra | exact finite_2000].
Qed.

Lemma finite_1000 : is_inf 1000 = false.
Proof. vm_compute. reflexivity. Qed.

Lemma add_finite x y :
  is_inf x = false -> is_inf y = false -> add x y = round64 (x + y).
Proof. intros Hx Hy. unfold add. rewrite Hx, Hy. reflexivity. Qed.

Lemma round64_1000 : round64 1000 = 1000.
Proof. vm_compute. reflexivity. Qed.

Lemma round64_2000 : round64 2000 = 2000.
Proof. vm_compute. reflexivity. Qed.

(** [1000 + 1000 * r] for [r] in [[0, 1)]. *)
Lemma uniform_in_range r :
  0 <= r -> r < 1 ->
  1000 <= add 1000 (mul 1000 r) /\ add 1000 (mul 1000 r) <= 2000.
Proof.
  intros H0 H1.
  assert (Fr : is_inf r = false).
  { apply (finite_below r 2000); [exact H0 | lra | exact finite_2000]. }
  rewrite (mul_finite 1000 r finite_1000 Fr).
  assert (Hm0 : 0 <= round64 (1000 * r)) by (apply round64_nonneg; lra).
  assert (Hm1 : round64 (1000 * r) <= 1000).
  { apply Qle_trans with (round64 1000);
      [apply round64_le; lra | rewrite round64_1000; apply Qle_refl]. }
  assert (Fm : is_inf (round64 (1000 * r)) = false).
  { apply (finite_below _ 2000); [exact Hm0 | lra | exact finite_2000]. }
  rewrite (add_finite 1000 _ finite_1000 Fm). split.
  - apply Qle_trans with (round64 1000);
      [rewrite round64_1000; apply Qle_refl | apply round64_le; lra].
  - apply Qle_trans with (round64 2000);
      [apply round64_le; lra | rewrite round64_2000; apply Qle_refl].
Qed.

Lemma is_inf_eq x y : x == y -> is_inf x = is_inf y.
Proof.
  intros E. unfold is_inf.
  destruct (Qle_bool infinity (Qabs x)) eqn:Hx;
    destruct (Qle_bool infinity (Qabs y)) eqn:Hy; try reflexivity.
  - apply Qle_bool_iff in Hx. rewrite E in Hx. apply Qle_bool_iff in Hx.
    congruence.
  - apply Qle_bool_iff in Hy. rewrite <- E in Hy. apply Qle_bool_iff in Hy.
    congruence.
Qed.

Lemma is_inf_opp x : is_inf (- x) = is_inf x.
Proof.
  unfold is_inf.
  destruct (Qle_bool infinity (Qabs (- x))) eqn:Hx;
    destruct (Qle_bool infinity (Qabs x)) eqn:Hy; try reflexivity.
  - apply Qle_bool_iff in Hx. rewrite Qabs_opp in Hx.
    apply Qle_bool_iff in Hx. congruence.
  - apply Qle_bool_iff in Hy. rewrite <- Qabs_opp in Hy.
    apply Qle_bool_iff in Hy. congruence.
Qed.

Lemma round64_at_threshold :
  round64 (inject_Z int_overflow) = infinity /\
  round64 (inject_Z (int_overflow - 1)) < infinity.
Proof. split; vm_compute; reflexivity. Qed.

Lemma is_inf_round64_nat n :
  (0 <= n)%Z ->
  is_inf (round64 (inject_Z n)) = true <-> (int_overflow <= n)%Z.
Proof.
  intros Hn.
  assert (H0 : 0 <= inject_Z n).
  { change 0 with (inject_Z 0). rewrite <- Zle_Qle. exact Hn. }
  rewrite (is_inf_true _ (round64_nonneg _ H0)).
  destruct round64_at_threshold as [Hat Hbelow]. split.
  - intros Hinf.
    destruct (Z_lt_le_dec n int_overflow) as [Hlt | Hge]; [| exact Hge].
    exfalso.
    assert (Hle : inject_Z n <= inject_Z (int_overflow - 1)).
    { rewrite <- Zle_Qle. lia. }
    apply (round64_le _ _ H0) in Hle. lra.
  - intros Hge. rewrite <- Hat. apply round64_le.
    + change 0 with (inject_Z 0). rewrite <- Zle_Qle. discriminate.
    + rewrite <- Zle_Qle. exact Hge.
Qed.

Lemma is_inf_round64_int n :
  is_inf (round64 (inject_Z n)) = true <-> (int_overflow <= Z.abs n)%Z.
Proof.
  destruct (Z_lt_le_dec n 0) as [Hneg | Hpos].
  - assert (Hq : inject_Z n < 0).
    { change 0 with (inject_Z 0). rewrite <- Zlt_Qlt. exact Hneg. }
    assert (Hp : 0 < inject_Z (- n)).
    { change 0 with (inject_Z 0). rewrite <- Zlt_Qlt. lia. }
    rewrite (is_inf_eq _ _ (round64_neg _ Hq)), is_inf_opp.
    change (- inject_Z n) with (inject_Z (- n)).
    rewrite <- (is_inf_eq _ _ (round64_pos _ Hp)).
    rewrite Z.abs_neq by lia. apply is_inf_round64_nat. lia.
  - rewrite Z.abs_eq by lia. apply is_inf_round64_nat. exact Hpos.
Qed.

(** The operations agree with the standard library's specification of
    IEEE 754 binary64 on quotients that are not doubles, on a product of
    such, on integers half-way between two doubles, at the threshold of
    overflow, on subnormal results, on an overflowing product, and on
    [1000 + 1000 * (1 - 2^-53)]. *)
Example agrees_with_ieee754 :
  of_ieee (SpecFloat.SFdiv 53 1024 (ieee 1) (ieee 3)) = div 1 3 /\
  of_ieee (SpecFloat.SFdiv 53 1024 (ieee 1) (ieee 10)) = div 1 10 /\
  of_ieee (SpecFloat.SFmul 53 1024 (ieee 16425859)
             (SpecFloat.SFdiv 53 1024 (ieee 12345678901) (ieee 10000000)))
    = mul 16425859 (div 12345678901 10000000) /\
  of_ieee (ieee (2 ^ 53 + 1)) = round64 (inject_Z (2 ^ 53 + 1)) /\
  of_ieee (ieee (2 ^ 53 + 3)) = round64 (inject_Z (2 ^ 53 + 3)) /\
  of_ieee (ieee (2 ^ 1024 - 2 ^ 970 - 1))
    = round64 (inject_Z (2 ^ 1024 - 2 ^ 970 - 1)) /\
  of_ieee (ieee (2 ^ 1024 - 2 ^ 970))
    = round64 (inject_Z (2 ^ 1024 - 2 ^ 970)) /\
  of_ieee (SpecFloat.SFdiv 53 1024 (ieee 1) (ieee (2 ^ 1023)))
    = div 1 (inject_Z (2 ^ 1023)) /\
  of_ieee (SpecFloat.SFdiv 53 1024
             (SpecFloat.SFdiv 53 1024 (ieee 3) (ieee (2 ^ 1023)))
             (ieee (2 ^ 52)))
    = div (div 3 (inject_Z (2 ^ 1023))) (inject_Z (2 ^ 52)) /\
  of_ieee (SpecFloat.SFmul 53 1024 (ieee (2 ^ 1000)) (ieee (2 ^ 1000)))
    = mul (inject_Z (2 ^ 1000)) (inject_Z (2 ^ 1000)) /\
  of_ieee (SpecFloat.SFadd 53 1024 (ieee 1000)
             (SpecFloat.SFmul 53 1024 (ieee 1000)
                (SpecFloat.S754_finite false (2 ^ 53 - 1) (-53))))
    = add 1000 (mul 1000 (1 - pow2 (-53))).
Proof. repeat split; vm_compute; reflexivity. Qed.

End Float64_facts.

(** ** Reasoning about computations *)

Lemma bind_ok {A B} (c : M A) (k : A -> M B) w w' b :
  bind c k w = (w', Ok b) ->
  exists a w1, c w = (w1, Ok a) /\ k a w1 = (w', Ok b).
Proof.
  unfold bind. destruct (c w) as [w1 [a | x]]; intros H.
  - exists a, w1. split; [reflexivity | exact H].
  - discriminate H.
Qed.

Lemma bind_raise {A B} (c : M A) (k : A -> M B) w w' x :
  bind c k w = (w', Raise x) ->
  c w = (w', Raise x) \/
  exists a w1, c w = (w1, Ok a) /\ k a w1 = (w', Raise x).
Proof.
  unfold bind. destruct (c w) as [w1 [a | y]]; intros H.
  - right. exists a, w1. split; [reflexivity | exact H].
  - left. injection H as -> ->. reflexivity.
Qed.

Lemma lift_ok {A} (r : result A) w w' a :
  lift r w = (w', Ok a) -> r = Ok a /\ w' = w.
Proof. unfold lift. intros H. inversion H. split; reflexivity. Qed.

Lemma ret_ok {A} (a b : A) w w' :
  ret a w = (w', Ok b) -> b = a /\ w' = w.
Proof. unfold ret. intros H. inversion H. split; reflexivity. Qed.

(** The two ways [generate_summary_image] ends. *)
Lemma image_ok e countries t w w' u :
  generate_summary_image e countries t w = (w', Ok u) ->
  exists top,
    top_countries countries = Ok top /\
    rendering e (mk_summary (length countries) t top) = None /\
    w' = mk_world (countries_collection w) (metadata_global w) (next_oid w)
           (Some (mk_summary (length countries) t top))
           (clock_reads w) (uniform_draws w).
Proof.
  unfold generate_summary_image. intros H.
  apply bind_ok in H. destruct H as (top & w0 & Htop & H).
  apply lift_ok in Htop. destruct Htop as [Htop ->].
  exists top. split; [exact Htop |].
  destruct (rendering e (mk_summary (length countries) t top));
    [discriminate H |].
  injection H as <- _. split; reflexivity.
Qed.

Lemma image_raise e countries t w w' x :
  generate_summary_image e countries t w = (w', Raise x) ->
  w' = w /\
  (top_countries countries = Raise x \/
   exists top failure,
     top_countries countries = Ok top /\
     rendering e (mk_summary (length countries) t top) = Some failure /\
     x = PyError failure).
Proof.
  unfold generate_summary_image. intros H.
  apply bind_raise in H. destruct H as [Htop | (top & w0 & Htop & H)].
  - injection Htop as <- Htop. split; [reflexivity | left; exact Htop].
  - apply lift_ok in Htop. destruct Htop as [Htop ->].
    destruct (rendering e (mk_summary (length countries) t top))
      as [failure |] eqn:Hrender; [| discriminate H].
    injection H as <- <-. split; [reflexivity |].
    right. exists top, failure. auto.
Qed.

Lemma calculate_none e population rate w :
  rate_is_zero_or_none rate = true ->
  calculate_estimated_gdp e population rate w = (w, Ok JNull).
Proof.
  unfold calculate_estimated_gdp, rate_is_zero_or_none. intros ->. reflexivity.
Qed.

(** A rate that converts to a float is zero as a float exactly when it
    compares equal to 0. *)
Lemma eq_zero_of_float rate r :
  Py.to_float rate = Ok r -> Py.eq rate (JInt 0) = Qeq_bool r 0.
Proof.
  destruct rate as [ | [ | ] | n | x | s | l | d]; simpl; intros H;
    try discriminate H; try (injection H as <-; reflexivity).
  destruct (Float64.is_inf (Float64.round64 (inject_Z n))); [discriminate H |].
  injection H as <-.
  destruct (Z.eq_dec n 0) as [-> | Hn]; [reflexivity |].
  rewrite (Float64_facts.round64_int_nonzero n Hn).
  apply not_true_is_false. intros Hc. apply Qeq_bool_iff in Hc.
  apply Hn. unfold Qeq in Hc. simpl in Hc. lia.
Qed.

Lemma calculate_float e population rate w p r :
  rate_is_zero_or_none rate = false ->
  Py.to_float population = Ok p ->
  Py.to_float rate = Ok r ->
  calculate_estimated_gdp e population rate w =
    (drawn w,
     Ok (JFloat (Float64.div
                   (Float64.mul p (next_multiplier e w))
                   r))).
Proof.
  unfold calculate_estimated_gdp, rate_is_zero_or_none. intros Hz Hp Hr.
  rewrite Hz.
  apply orb_false_iff in Hz. destruct Hz as [_ Hz].
  rewrite (eq_zero_of_float _ _ Hr) in Hz.
  unfold bind, random_uniform, lift, Py.mul_float, Py.truediv, ret.
  rewrite Hp, Hr, Hz. reflexivity.
Qed.

(** A run of [calculate_estimated_gdp] that raises: an operand that is no
    number, or an integer without a nearest double. *)
Lemma calculate_raise e population rate w w' x :
  calculate_estimated_gdp e population rate w = (w', Raise x) ->
  rate_is_zero_or_none rate = false /\
  w' = drawn w /\
  (Py.to_float population = Raise x \/
   (exists p, Py.to_float population = Ok p) /\ Py.to_float rate = Raise x).
Proof.
  intros H. destruct (rate_is_zero_or_none rate) eqn:Hz.
  - rewrite (calculate_none _ _ _ _ Hz) in H. discriminate H.
  - split; [reflexivity |].
    destruct (Py.to_float population) as [p | xp] eqn:Hp.
    + destruct (Py.to_float rate) as [r | xr] eqn:Hr.
      * rewrite (calculate_float _ _ _ _ _ _ Hz Hp Hr) in H. discriminate H.
      * revert H. unfold calculate_estimated_gdp.
        fold (rate_is_zero_or_none rate). rewrite Hz.
        unfold bind, random_uniform, lift, Py.mul_float, Py.truediv.
        rewrite Hp, Hr. intros H. injection H as <- <-.
        split; [reflexivity |]. right. split; [exists p |]; reflexivity.
    + revert H. unfold calculate_estimated_gdp.
      fold (rate_is_zero_or_none rate). rewrite Hz.
      unfold bind, random_uniform, lift, Py.mul_float.
      rewrite Hp. intros H. injection H as <- <-.
      split; [reflexivity |]. left. reflexivity.
Qed.

(** Every successful run of [calculate_estimated_gdp] is one of the two
    above. *)
Lemma calculate_cases e population rate w w' g :
  calculate_estimated_gdp e population rate w = (w', Ok g) ->
  (rate_is_zero_or_none rate = true /\ g = JNull /\ w' = w) \/
  (rate_is_zero_or_none rate = false /\
   exists p r,
     Py.to_float population = Ok p /\ Py.to_float rate = Ok r /\
     g = JFloat (Float64.div
                   (Float64.mul p (next_multiplier e w)) r) /\
     w' = drawn w).
Proof.
  intros H. destruct (rate_is_zero_or_none rate) eqn:Hz.
  - left. rewrite (calculate_none _ _ _ _ Hz) in H. inversion H. auto.
  - right. split; [reflexivity |].
    destruct (Py.to_float population) as [p | xp] eqn:Hp.
    + destruct (Py.to_float rate) as [r | xr] eqn:Hr.
      * rewrite (calculate_float _ _ _ _ _ _ Hz Hp Hr) in H. inversion H.
        exists p, r. auto.
      * exfalso. revert H. unfold calculate_estimated_gdp.
        fold (rate_is_zero_or_none rate). rewrite Hz.
        unfold bind, random_uniform, lift, Py.mul_float, Py.truediv.
        rewrite Hp, Hr. discriminate.
    + exfalso. revert H. unfold calculate_estimated_gdp.
      fold (rate_is_zero_or_none rate). rewrite Hz.
      unfold bind, random_uniform, lift, Py.mul_float.
      rewrite Hp. discriminate.
Qed.

(** Every successful run of [derive_currency_fields]: the raw record is an
    object and the three fields come from one of two paths. *)
Lemma derive_cases e rates cd w w' code rate gdp :
  derive_currency_fields e rates cd w = (w', Ok (code, rate, gdp)) ->
  exists c,
    cd = JObj c /\
    ((rate = JNull /\ gdp = JInt 0 /\ w' = w /\
      (Py.truthy code = false \/ Py.contains code rates = Ok false)) \/
     (Py.truthy code = true /\
      Py.contains code rates = Ok true /\
      Py.getitem rates code = Ok rate /\
      calculate_estimated_gdp e (copied c "population" (JInt 0)) rate w =
        (w', Ok gdp))).
Proof.
  intros H. unfold derive_currency_fields in H.
  destruct cd as [ | b | n | x | s | l | c];
    try (apply bind_ok in H; destruct H as (a & w1 & H & _);
         apply lift_ok in H; destruct H as [H _]; discriminate H).
  exists c. split; [reflexivity |].
  apply bind_ok in H. destruct H as (currencies & w1 & Hc & H).
  apply lift_ok in Hc. destruct Hc as [_ ->].
  apply bind_ok in H. destruct H as (nonempty & w2 & Hn & Hd).
  assert (Hw2 : w2 = w).
  { destruct (Py.truthy currencies).
    - apply bind_ok in Hn. destruct Hn as (n & w0 & Hn & Hr).
      apply lift_ok in Hn. destruct Hn as [_ ->].
      apply ret_ok in Hr. destruct Hr as [_ ->]. reflexivity.
    - apply ret_ok in Hn. destruct Hn as [_ ->]. reflexivity. }
  subst w2. clear Hn.
  destruct nonempty.
  - apply bind_ok in Hd. destruct Hd as (first & w0 & Hf & Hd).
    apply lift_ok in Hf. destruct Hf as [_ ->].
    apply bind_ok in Hd. destruct Hd as (code' & w0 & Hcode & Hd).
    apply lift_ok in Hcode. destruct Hcode as [_ ->].
    apply bind_ok in Hd. destruct Hd as (mapped & w0 & Hm & Hd).
    assert (Hw0 : w0 = w /\
                  (mapped = true ->
                   Py.truthy code' = true /\
                   Py.contains code' rates = Ok true) /\
                  (mapped = false ->
                   Py.truthy code' = false \/
                   Py.contains code' rates = Ok false)).
    { destruct (Py.truthy code').
      - apply lift_ok in Hm. destruct Hm as [Hm ->].
        split; [reflexivity |]. split; intros ->; auto.
      - apply ret_ok in Hm. destruct Hm as [-> ->].
        split; [reflexivity |]. split; [discriminate | auto]. }
    destruct Hw0 as (-> & Htrue & Hfalse). clear Hm.
    destruct mapped.
    + destruct (Htrue eq_refl) as [Ht Hin].
      apply bind_ok in Hd. destruct Hd as (rate' & w0 & Hrate & Hd).
      apply lift_ok in Hrate. destruct Hrate as [Hrate ->].
      apply bind_ok in Hd. destruct Hd as (pop & w0 & Hpop & Hd).
      apply lift_ok in Hpop. destruct Hpop as [Hpop ->].
      apply bind_ok in Hd. destruct Hd as (gdp' & w0 & Hgdp & Hd).
      apply ret_ok in Hd. destruct Hd as [Hd ->].
      inversion Hd; subst code rate gdp; clear Hd.
      simpl in Hpop. inversion Hpop; subst pop; clear Hpop.
      right. repeat split; assumption.
    + apply ret_ok in Hd. destruct Hd as [Hd ->].
      inversion Hd; subst code rate gdp; clear Hd.
      left. repeat split; try reflexivity. exact (Hfalse eq_refl).
  - apply ret_ok in Hd. destruct Hd as [Hd ->].
    inversion Hd; subst code rate gdp; clear Hd.
    left. repeat split; try reflexivity. left. reflexivity.
Qed.

(** On an object, [build_country_doc] adds the copied fields and the
    timestamp to the derived ones. *)
Lemma build_of_derived e rates ts c w :
  build_country_doc e rates ts (JObj c) w =
  match derive_currency_fields e rates (JObj c) w with
  | (w', Ok (code, rate, gdp)) =>
      (w', Ok (mk_country_doc (copied c "name" JNull)
                 (copied c "capital" JNull) (copied c "region" JNull)
                 (copied c "population" (JInt 0)) code rate gdp
                 (copied c "flag" JNull) ts))
  | (w', Raise x) => (w', Raise x)
  end.
Proof.
  unfold build_country_doc, bind at 1.
  destruct (derive_currency_fields e rates (JObj c) w)
    as [w' [[[code rate] gdp] | x]]; reflexivity.
Qed.

(** Every successful run of [build_country_doc]: five fields are copied
    from the raw record, the timestamp is the one given, and the derived
    fields come from one of two paths. *)
Lemma build_cases e rates ts cd w w' d :
  build_country_doc e rates ts cd w = (w', Ok d) ->
  exists c,
    cd = JObj c /\
    name d = copied c "name" JNull /\
    capital d = copied c "capital" JNull /\
    region d = copied c "region" JNull /\
    population d = copied c "population" (JInt 0) /\
    flag_url d = copied c "flag" JNull /\
    last_refreshed_at d = ts /\
    ((exchange_rate d = JNull /\ estimated_gdp d = JInt 0 /\ w' = w /\
      (Py.truthy (currency_code d) = false \/
       Py.contains (currency_code d) rates = Ok false)) \/
     (Py.truthy (currency_code d) = true /\
      Py.contains (currency_code d) rates = Ok true /\
      Py.getitem rates (currency_code d) = Ok (exchange_rate d) /\
      calculate_estimated_gdp e (population d) (exchange_rate d) w =
        (w', Ok (estimated_gdp d)))).
Proof.
  intros H.
  destruct cd as [ | b | n | x | s | l | c];
    try (unfold build_country_doc in H; apply bind_ok in H;
         destruct H as (a & w1 & H & _); destruct a as [[code rate] gdp];
         apply derive_cases in H; destruct H as (c & H & _);
         discriminate H).
  rewrite build_of_derived in H.
  destruct (derive_currency_fields e rates (JObj c) w)
    as [w1 [[[code rate] gdp] | x]] eqn:Hd; [| discriminate H].
  inversion H; subst w1 d; clear H. simpl.
  apply derive_cases in Hd. destruct Hd as (c' & Hc & Hd).
  inversion Hc; subst c'. exists c.
  repeat (split; [reflexivity |]). exact Hd.
Qed.

(** ** C1: derived fields of a produced record *)

(** C1, as stated, fails: a country whose first currency code is absent
    from the rate mapping gets a record whose [estimated_gdp] is the integer
    0, present and not null, while its [exchange_rate] is empty. *)
Lemma unmapped_code_keeps_zero_gdp :
  build_country_doc Sample.e Sample.rates 0%Z Sample.atlantis Sample.w
    = (Sample.w, Ok Sample.atlantis_doc) /\
  estimated_gdp Sample.atlantis_doc = JInt 0 /\
  ~ (has_gdp Sample.atlantis_doc = true <->
     rate_present_nonzero Sample.atlantis_doc = true).
Proof.
  split; [reflexivity |]. split; [reflexivity |].
  intros [H _]. specialize (H eq_refl). discriminate H.
Qed.

(** C1, amended: in every record produced by the derivation step,
    [estimated_gdp] is a derived float if and only if [exchange_rate] is
    present and non-zero.  When the record has no usable currency code, or
    the code is absent from the rate mapping, [exchange_rate] is empty and
    [estimated_gdp] is the integer 0; when the mapped rate is zero (or
    null), that rate is stored and [estimated_gdp] is empty. *)
Theorem gdp_derived_iff_rate_nonzero e rates ts cd w w' d :
  build_country_doc e rates ts cd w = (w', Ok d) ->
  (is_float (estimated_gdp d) = true <-> rate_present_nonzero d = true) /\
  (Py.truthy (currency_code d) = false ->
   exchange_rate d = JNull /\ estimated_gdp d = JInt 0) /\
  (Py.contains (currency_code d) rates = Ok false ->
   exchange_rate d = JNull /\ estimated_gdp d = JInt 0) /\
  (rate_present_nonzero d = false -> exchange_rate d <> JNull ->
   Py.eq (exchange_rate d) (JInt 0) = true /\ estimated_gdp d = JNull).
Proof.
  intros H. apply build_cases in H.
  destruct H as (c & _ & _ & _ & _ & _ & _ & _ & Hpath).
  unfold rate_present_nonzero.
  destruct Hpath as [(Hrate & Hgdp & _ & _) | (Ht & Hin & Hget & Hcalc)].
  - rewrite Hrate, Hgdp. simpl.
    repeat split; try discriminate; try reflexivity;
      exfalso; match goal with Hne : JNull <> JNull |- _ => apply Hne end;
      reflexivity.
  - split; [| split; [| split]].
    + apply calculate_cases in Hcalc.
      destruct Hcalc as [(Hz & Hg & _) | (Hz & x & y & _ & _ & Hg & _)];
        rewrite Hz, Hg; simpl; split; discriminate || reflexivity.
    + rewrite Ht. discriminate.
    + rewrite Hin. discriminate.
    + intros Hz Hne. apply negb_false_iff in Hz.
      rewrite (calculate_none _ _ _ _ Hz) in Hcalc. inversion Hcalc.
      split; [| reflexivity].
      unfold rate_is_zero_or_none in Hz. apply orb_true_iff in Hz.
      destruct Hz as [Hz | Hz]; [| exact Hz].
      exfalso. apply Hne. destruct (exchange_rate d); try discriminate Hz.
      reflexivity.
Qed.

Lemma gdp_derived_iff_rate_nonzero_witness :
  build_country_doc Sample.e Sample.rates 0%Z Sample.atlantis Sample.w
    = (Sample.w, Ok Sample.atlantis_doc) /\
  (is_float (estimated_gdp Sample.atlantis_doc) = true <->
   rate_present_nonzero Sample.atlantis_doc = true) /\
  exchange_rate Sample.atlantis_doc = JNull /\
  estimated_gdp Sample.atlantis_doc = JInt 0.
Proof.
  split; [reflexivity |].
  destruct (gdp_derived_iff_rate_nonzero Sample.e Sample.rates 0%Z
              Sample.atlantis Sample.w Sample.w Sample.atlantis_doc eq_refl)
    as (Hiff & _ & Hunmapped & _).
  split; [exact Hiff |]. apply Hunmapped. reflexivity.
Defined.

(** ** C3: the derived estimate *)

(** C3, as stated, fails: a country without a population entry counts as
    population 0, and with its currency mapped to the rate 2 and the
    multiplier 1500 its [estimated_gdp] is 0, which is not strictly positive
    and lies in no interval [[0 * 1000 / 2, 0 * 2000 / 2)]. *)
Lemma zero_population_zero_gdp :
  build_country_doc Sample.e Sample.rates 0%Z Sample.nowhere Sample.w
    = (drawn Sample.w, Ok Sample.nowhere_doc) /\
  multiplier_in_range (next_multiplier Sample.e Sample.w) /\
  exchange_rate Sample.nowhere_doc = JFloat 2 /\
  population Sample.nowhere_doc = JInt 0 /\
  estimated_gdp Sample.nowhere_doc = JFloat 0 /\
  ~ (0 < 0)%Q /\
  ~ (0 * 1000 / 2 <= 0 /\ 0 < 0 * 2000 / 2)%Q.
Proof.
  split; [vm_compute; reflexivity |].
  split; [split; apply Qle_bool_iff; vm_compute; reflexivity |].
  repeat (split; [reflexivity |]).
  split; [discriminate |]. intros [_ H]. discriminate H.
Qed.

(** A rate that converts to a non-zero float is one that
    [calculate_estimated_gdp] divides by. *)
Lemma nonzero_rate_is_used rate r :
  Py.to_float rate = Ok r -> ~ (r == 0)%Q ->
  rate_is_zero_or_none rate = false.
Proof.
  intros Hr Hne. unfold rate_is_zero_or_none.
  rewrite (eq_zero_of_float _ _ Hr).
  replace (is_none rate) with false
    by (destruct rate; try reflexivity; discriminate Hr).
  apply not_true_is_false. intros Hq. apply Qeq_bool_iff in Hq.
  exact (Hne Hq).
Qed.

(** The float made of an integer is its nearest double, and is finite. *)
Lemma float_of_int n p :
  Py.to_float (JInt n) = Ok p ->
  p = Float64.round64 (inject_Z n) /\ Float64.is_inf p = false.
Proof.
  simpl. destruct (Float64.is_inf (Float64.round64 (inject_Z n))) eqn:Hinf;
    intros H; [discriminate H |].
  injection H as <-. split; [reflexivity | exact Hinf].
Qed.

(** The upper end of the range is reached: for the largest value of
    [random()], [1 - 2^-53], the multiplier [1000 + 1000 * random()] is
    rounded to 2000. *)
Lemma largest_draw_gives_2000 :
  (0 <= 1 - Float64.pow2 (-53) /\ 1 - Float64.pow2 (-53) < 1)%Q /\
  uniform 1000 2000 (1 - Float64.pow2 (-53)) = 2000%Q.
Proof.
  split; [split; [apply Qle_bool_iff |]; vm_compute; reflexivity |].
  vm_compute. reflexivity.
Qed.

(** [random.uniform(1000, 2000)] is in [[1000, 2000]], both ends
    included, whatever [random()] returns in [[0, 1)]. *)
Lemma next_multiplier_in_range e w :
  (0 <= random_random e (uniform_draws w) /\
   random_random e (uniform_draws w) < 1)%Q ->
  multiplier_in_range (next_multiplier e w).
Proof.
  intros [H0 H1]. exact (Float64_facts.uniform_in_range _ H0 H1).
Qed.

(** C3, amended: for an integer population that has a nearest double and a
    rate that is a finite non-zero number, the estimate is the double
    [(population * U) / rate], each operation rounded to the nearest double
    ([inf] when it overflows), for the multiplier
    [U = 1000 + 1000 * random()], which lies in [[1000, 2000]].  When the
    population and the rate are positive, the estimate is strictly positive
    and lies between the doubles [(population * 1000) / rate] and
    [(population * 2000) / rate], both included.  When the population is 0,
    the estimate is 0. *)
Theorem positive_gdp_in_range e n rate w p r :
  Py.to_float (JInt n) = Ok p ->
  Py.to_float rate = Ok r ->
  ~ (r == 0)%Q ->
  Float64.is_inf r = false ->
  (0 <= random_random e (uniform_draws w) /\
   random_random e (uniform_draws w) < 1)%Q ->
  calculate_estimated_gdp e (JInt n) rate w =
    (drawn w,
     Ok (JFloat (Float64.div (Float64.mul p (next_multiplier e w)) r))) /\
  multiplier_in_range (next_multiplier e w) /\
  ((0 < n)%Z -> (0 < r)%Q ->
   (0 < Float64.div (Float64.mul p (next_multiplier e w)) r)%Q /\
   (Float64.div (Float64.mul p 1000) r <=
      Float64.div (Float64.mul p (next_multiplier e w)) r)%Q /\
   (Float64.div (Float64.mul p (next_multiplier e w)) r <=
      Float64.div (Float64.mul p 2000) r)%Q) /\
  (n = 0%Z ->
   Float64.div (Float64.mul p (next_multiplier e w)) r = 0%Q).
Proof.
  intros Hp Hr Hne Fr Hrandom.
  destruct (next_multiplier_in_range e w Hrandom) as [Hlo Hhi].
  set (u := next_multiplier e w) in *.
  split; [| split; [split; assumption | split]].
  - exact (calculate_float e _ _ w _ _ (nonzero_rate_is_used _ _ Hr Hne)
             Hp Hr).
  - intros Hn Hr0.
    destruct (float_of_int _ _ Hp) as [Hval Fp].
    apply Float64_facts.estimate_in_range; try assumption.
    rewrite Hval. apply Float64_facts.round64_ge_1.
    change 1%Q with (inject_Z 1). rewrite <- Zle_Qle. lia.
  - intros ->.
    destruct (float_of_int _ _ Hp) as [-> _].
    change (Float64.round64 (inject_Z 0)) with 0%Q.
    rewrite Float64_facts.mul_zero_l.
    + apply Float64_facts.div_zero_l. exact Hne.
    + apply (Float64_facts.finite_below u 2000);
        [apply Qle_trans with 1000%Q; [discriminate | exact Hlo]
        | exact Hhi | exact Float64_facts.finite_2000].
Qed.

Lemma positive_gdp_in_range_witness :
  calculate_estimated_gdp Sample.e (JInt 1000000) (JFloat 2) Sample.w
    = (drawn Sample.w, Ok (JFloat 750000000)) /\
  (0 < 750000000)%Q /\
  (500000000 <= 750000000)%Q /\
  (750000000 <= 1000000000)%Q.
Proof.
  assert (Hp : Py.to_float (JInt 1000000) = Ok 1000000%Q)
    by (vm_compute; reflexivity).
  assert (Hne : ~ (2 == 0)%Q) by discriminate.
  assert (Hr : (0 <= random_random Sample.e (uniform_draws Sample.w) /\
                random_random Sample.e (uniform_draws Sample.w) < 1)%Q)
    by (split; [discriminate | reflexivity]).
  assert (Hfinite : Float64.is_inf 2 = false) by (vm_compute; reflexivity).
  assert (Hu : Float64.div
                 (Float64.mul 1000000 (next_multiplier Sample.e Sample.w)) 2
               = 750000000%Q) by (vm_compute; reflexivity).
  assert (Hlo : Float64.div (Float64.mul 1000000 1000) 2 = 500000000%Q)
    by (vm_compute; reflexivity).
  assert (Hhi : Float64.div (Float64.mul 1000000 2000) 2 = 1000000000%Q)
    by (vm_compute; reflexivity).
  destruct (positive_gdp_in_range Sample.e 1000000 (JFloat 2) Sample.w
              1000000 2 Hp eq_refl Hne Hfinite Hr) as (Hrun & _ & Hpos & _).
  specialize (Hpos eq_refl eq_refl).
  rewrite Hu in Hrun, Hpos. rewrite Hlo, Hhi in Hpos.
  split; [exact Hrun | exact Hpos].
Defined.

(** ** C5: the derivation step on raw records *)


(** An integer has a nearest double exactly when its magnitude is below
    [2^1024 - 2^970]. *)
Lemma fits_a_float_iff n :
  fits_a_float n = true <-> (Z.abs n < Float64.int_overflow)%Z.
Proof.
  unfold fits_a_float. rewrite negb_true_iff.
  pose proof (Float64_facts.is_inf_round64_int n) as Hinf.
  destruct (Float64.is_inf (Float64.round64 (inject_Z n))); split;
    intros H; try reflexivity; try discriminate H.
  - exfalso. destruct Hinf as [Hinf _]. specialize (Hinf eq_refl). lia.
  - destruct (Z_lt_le_dec (Z.abs n) Float64.int_overflow) as [Hlt | Hge];
      [exact Hlt |].
    destruct Hinf as [_ Hinf]. discriminate (Hinf Hge).
Qed.








(** ** C8: a rates payload without ["rates"] *)

Lemma nothing_in_empty_mapping code :
  Py.contains code (JObj []) <> Ok true.
Proof. destruct code; simpl; discriminate. Qed.

(** C8: when the rates source answers with an object that has no ["rates"]
    entry, the fetch succeeds with the empty mapping, and with that mapping
    every record the derivation produces is unmapped: no exchange rate, the
    integer 0 as estimate, and no random draw. *)
Theorem missing_rates_is_empty_mapping e data :
  open_er_api e = Body (Some (JObj data)) ->
  dict_lookup "rates" data = None ->
  fetch_exchange_rates e = Ok (JObj []) /\
  forall ts cd w w' d,
    build_country_doc e (JObj []) ts cd w = (w', Ok d) ->
    exchange_rate d = JNull /\ estimated_gdp d = JInt 0 /\ w' = w.
Proof.
  intros Hbody Hnone. split.
  - unfold fetch_exchange_rates. rewrite Hbody. simpl. rewrite Hnone.
    reflexivity.
  - intros ts cd w w' d H. apply build_cases in H.
    destruct H as (c & _ & _ & _ & _ & _ & _ & _ & Hpath).
    destruct Hpath as [(Hrate & Hgdp & Hw & _) | (_ & Hin & _)].
    + auto.
    + exfalso. exact (nothing_in_empty_mapping _ Hin).
Qed.

Lemma missing_rates_is_empty_mapping_witness :
  open_er_api Sample.e_without_rates
    = Body (Some (JObj [("result", JStr "error")])) /\
  fetch_exchange_rates Sample.e_without_rates = Ok (JObj []) /\
  exchange_rate Sample.atlantis_doc = JNull /\
  estimated_gdp Sample.atlantis_doc = JInt 0.
Proof.
  split; [reflexivity |].
  destruct (missing_rates_is_empty_mapping Sample.e_without_rates
              [("result", JStr "error")] eq_refl eq_refl) as [Hfetch Hall].
  split; [exact Hfetch |].
  destruct (Hall 0%Z Sample.atlantis Sample.w Sample.w Sample.atlantis_doc
              eq_refl) as (Hrate & Hgdp & _).
  split; assumption.
Defined.

(** ** C2: a failed fetch *)

(** Whatever makes a fetch raise, the refresh leaves the world as it found
    it. *)
Lemma raising_fetch_writes_nothing `{RegexEngine} `{PyRepr} e w x :
  fetch_countries_data e = Raise x \/
  (exists countries,
     fetch_countries_data e = Ok countries /\
     fetch_exchange_rates e = Raise x) ->
  fst (refresh_countries e w) = w.
Proof.
  unfold refresh_countries, refresh_body, bind, lift.
  intros [Hc | (countries & Hc & Hr)].
  - rewrite Hc. destruct x; reflexivity.
  - rewrite Hc, Hr. destruct x; reflexivity.
Qed.

(** C2, as stated, fails: a rates source that answers with a body that is
    not JSON makes the fetch fail with a [JSONDecodeError], which is no
    [httpx.HTTPError]; the refresh answers 500, not 503, and names no
    provider.  The store is as it was. *)
Lemma malformed_payload_is_500 :
  fetch_exchange_rates Sample.e_not_json = Raise (PyError JSONDecodeError) /\
  forall R : PyRepr,
    @refresh_countries Pcre.engine R Sample.e_not_json Sample.w_store =
      (Sample.w_store,
       Raise (HTTPException 500
                (mk_detail "Internal server error"
                   (Some (ExceptionText JSONDecodeError))))).
Proof. split; [| intros R]; reflexivity. Qed.

(** C2, amended: if either fetch fails, the store is left as it was: no
    document written, no marker, no artifact, the clock not read.  When the
    fetch fails with an HTTP error of the client (a timeout, a transport
    error, a status that is not a success), the refresh answers 503 with
    the failing provider named in the details; when it fails because the
    body is not JSON, or because the rates payload is not an object, the
    refresh answers 500 with the text of the exception. *)
Theorem failed_fetch_writes_nothing `{RegexEngine} `{PyRepr} e w :
  match restcountries e, open_er_api e with
  | HTTPError cause, _ =>
      refresh_countries e w =
        (w, Raise (HTTPException 503
                     (mk_detail "External data source unavailable"
                        (Some (Cause
                                 "Could not fetch data from restcountries.com: "
                                 cause)))))
  | Body None, _ =>
      refresh_countries e w = (w, Raise (internal_error JSONDecodeError))
  | Body (Some _), HTTPError cause =>
      refresh_countries e w =
        (w, Raise (HTTPException 503
                     (mk_detail "External data source unavailable"
                        (Some (Cause
                                 "Could not fetch data from open.er-api.com: "
                                 cause)))))
  | Body (Some _), Body None =>
      refresh_countries e w = (w, Raise (internal_error JSONDecodeError))
  | Body (Some _), Body (Some data) =>
      (forall d, data <> JObj d) ->
      fetch_exchange_rates e = Raise (PyError AttributeError) /\
      refresh_countries e w = (w, Raise (internal_error AttributeError))
  end.
Proof.
  unfold refresh_countries, refresh_body, bind, lift, fetch_countries_data,
    fetch_exchange_rates.
  destruct (restcountries e) as [cause | [countries |]];
    [reflexivity | | reflexivity].
  destruct (open_er_api e) as [cause | [data |]]; [reflexivity | | reflexivity].
  intros Hdata.
  destruct data as [ | | | | | | d]; try (split; reflexivity).
  exfalso. exact (Hdata d eq_refl).
Qed.

Lemma failed_fetch_writes_nothing_witness :
  (forall d, JArr [] <> JObj d) /\
  forall R : PyRepr,
    fetch_exchange_rates Sample.e_rates_list = Raise (PyError AttributeError) /\
    @refresh_countries Pcre.engine R Sample.e_rates_list Sample.w_store =
      (Sample.w_store, Raise (internal_error AttributeError)).
Proof.
  assert (Hlist : forall d, JArr [] <> JObj d) by (intros d; discriminate).
  split; [exact Hlist |]. intros R.
  exact (@failed_fetch_writes_nothing Pcre.engine R Sample.e_rates_list
           Sample.w_store Hlist).
Defined.

(** ** C10: empty query parameters *)

Lemma filter_all {A} (l : list A) : filter (fun _ => true) l = l.
Proof. induction l as [| a l IH]; simpl; [| rewrite IH]; reflexivity. Qed.

(** C10: an empty [region] or [currency] parameter adds no condition to the
    query: the listing is the one obtained without the parameter, and with
    both empty and no sort it is the whole collection in the store's
    order. *)
Theorem empty_parameter_is_no_filter `{RegexEngine} `{CursorSort}
    region currency sort w :
  get_countries (Some "") currency sort w = get_countries None currency sort w /\
  get_countries region (Some "") sort w = get_countries region None sort w /\
  get_countries (Some "") (Some "") None w = Ok (countries_collection w).
Proof.
  split; [reflexivity |]. split; [reflexivity |].
  unfold get_countries. simpl. rewrite filter_all. reflexivity.
Qed.

(** ** C7: listing *)

(** A [sort] value outside the four recognised ones sorts nothing. *)
Lemma unrecognised_sort_is_no_sort s :
  s <> "gdp_desc" -> s <> "gdp_asc" ->
  s <> "population_desc" -> s <> "population_asc" ->
  sort_criteria (Some s) = None.
Proof.
  intros H1 H2 H3 H4. unfold sort_criteria.
  destruct (String.eqb s ""); [reflexivity |].
  apply String.eqb_neq in H1, H2, H3, H4.
  rewrite H1, H2, H3, H4. reflexivity.
Qed.

(** Without sort criteria the listing is the matching documents in the
    store's order: none dropped, none added. *)
Lemma unsorted_listing_is_the_filter `{RegexEngine} `{CursorSort}
    region currency sort w by_region by_currency :
  sort_criteria sort = None ->
  condition stored_region region = Some by_region ->
  condition stored_currency_code currency = Some by_currency ->
  get_countries region currency sort w =
    Ok (filter (fun s => satisfies by_region s && satisfies by_currency s)
          (countries_collection w)).
Proof.
  intros Hsort Hr Hc. unfold get_countries. rewrite Hr, Hc, Hsort.
  reflexivity.
Qed.

(** C7, where the code departs from it: the [region] parameter is spliced
    into a pattern unescaped.  With the filter [A.*a] the listing holds the
    documents of Africa and of Asia, neither of which equals the filter up
    to case. *)
Theorem region_filter_is_a_pattern `{CursorSort} :
  @get_countries Pcre.engine _ (Some "A.*a") None None Sample.w_store
    = Ok [Sample.chad; Sample.korea] /\
  ci_equal "A.*a" "Africa" = false /\
  ci_equal "A.*a" "Asia" = false /\
  @get_countries Pcre.engine _ (Some "africa") None None Sample.w_store
    = Ok [Sample.chad].
Proof. repeat split; vm_compute; reflexivity. Qed.

(** ** C6: lookup by name *)

(** C6, where the code departs from it: the name is spliced into a pattern
    unescaped.  A stored name with parentheses is not found under its own
    name, and the request [C.ad] finds Chad. *)
Theorem name_lookup_is_a_pattern :
  @get_country Pcre.engine "Korea (Republic of)" Sample.w_store
    = Raise not_found /\
  ci_equal "Korea (Republic of)" "Korea (Republic of)" = true /\
  @get_country Pcre.engine "C.ad" Sample.w_store = Ok Sample.chad /\
  ci_equal "C.ad" "Chad" = false /\
  @get_country Pcre.engine "chad" Sample.w_store = Ok Sample.chad.
Proof. repeat split; vm_compute; reflexivity. Qed.

(** ** C4: one timestamp per refresh cycle *)

Lemma same_store_refl w : same_store w w.
Proof. repeat split. Qed.

Lemma same_store_trans w w1 w2 :
  same_store w w1 -> same_store w1 w2 -> same_store w w2.
Proof.
  intros (A1 & A2 & A3 & A4 & A5) (B1 & B2 & B3 & B4 & B5).
  repeat split; congruence.
Qed.

Lemma preserves_ret {A} (a : A) : preserves_store (ret a).
Proof. intros w w1 r H. inversion H. apply same_store_refl. Qed.

Lemma preserves_lift {A} (x : result A) : preserves_store (lift x).
Proof. intros w w1 r H. inversion H. apply same_store_refl. Qed.

Lemma preserves_bind {A B} (c : M A) (k : A -> M B) :
  preserves_store c -> (forall a, preserves_store (k a)) ->
  preserves_store (bind c k).
Proof.
  intros Hc Hk w w1 r. unfold bind.
  destruct (c w) as [w0 [a | x]] eqn:Hrun; intros H.
  - apply same_store_trans with w0; [exact (Hc _ _ _ Hrun) |].
    exact (Hk a _ _ _ H).
  - inversion H; subst. exact (Hc _ _ _ Hrun).
Qed.

Lemma preserves_random_uniform e : preserves_store (random_uniform e).
Proof. intros w w1 r H. inversion H. repeat split. Qed.

Ltac preserve :=
  repeat first
    [ apply preserves_ret
    | apply preserves_lift
    | apply preserves_random_uniform
    | apply preserves_bind; [| intros ?]
    | match goal with
      | |- preserves_store (if ?b then _ else _) => destruct b
      | |- preserves_store (let '(_, _) := ?p in _) => destruct p
      end ].

Lemma preserves_calculate e population rate :
  preserves_store (calculate_estimated_gdp e population rate).
Proof. unfold calculate_estimated_gdp. preserve. Qed.

Lemma preserves_derive e rates cd :
  preserves_store (derive_currency_fields e rates cd).
Proof.
  unfold derive_currency_fields. preserve. apply preserves_calculate.
Qed.

Lemma preserves_build e rates t cd :
  preserves_store (build_country_doc e rates t cd).
Proof.
  unfold build_country_doc. apply preserves_bind; [apply preserves_derive |].
  intros [[code rate] gdp]. preserve.
Qed.

Lemma stamped_refl t w : writes_only_stamped t w w.
Proof. repeat split. intros s Hs. left. exact Hs. Qed.

Lemma stamped_trans t w w1 w2 :
  writes_only_stamped t w w1 -> writes_only_stamped t w1 w2 ->
  writes_only_stamped t w w2.
Proof.
  intros (A1 & A2 & A3 & A4) (B1 & B2 & B3 & B4).
  repeat split; try congruence.
  intros s Hs. destruct (B4 s Hs) as [Hin | Ht]; [| right; exact Ht].
  exact (A4 s Hin).
Qed.

Lemma stamped_of_same_store t w w1 :
  same_store w w1 -> writes_only_stamped t w w1.
Proof.
  intros (A1 & A2 & A3 & A4 & A5). repeat split; try assumption.
  intros s Hs. left. rewrite <- A1. exact Hs.
Qed.

Lemma set_first_writes p d l l' :
  set_first p d l = Some l' ->
  forall s, In s l' -> In s l \/ doc s = d.
Proof.
  revert l'. induction l as [| a l IH]; simpl; [discriminate |].
  intros l' H s Hs. destruct (p a).
  - inversion H; subst l'; clear H. destruct Hs as [<- | Hs].
    + right. reflexivity.
    + left. right. exact Hs.
  - destruct (set_first p d l) as [l'' |]; [| discriminate H].
    inversion H; subst l'; clear H. destruct Hs as [<- | Hs].
    + left. left. reflexivity.
    + destruct (IH l'' eq_refl s Hs) as [Hin | Hd];
        [left; right; exact Hin | right; exact Hd].
Qed.

Lemma upsert_writes_stamped `{RegexEngine} pattern d w w1 r :
  update_one_upsert pattern d w = (w1, r) ->
  writes_only_stamped (last_refreshed_at d) w w1.
Proof.
  unfold update_one_upsert.
  destruct (regex_i pattern) as [m |].
  - destruct (set_first _ d (countries_collection w)) as [l |] eqn:Hset;
      intros Hrun; inversion Hrun; subst; clear Hrun;
      repeat split; simpl; intros s Hs.
    + destruct (set_first_writes _ _ _ _ Hset s Hs) as [Hin | ->]; auto.
    + apply in_app_or in Hs. destruct Hs as [Hin | [<- | []]]; auto.
  - intros Hrun. inversion Hrun. apply stamped_refl.
Qed.

(** The loop writes documents with the timestamp it was given, and what it
    adds to [processed_countries] carries that timestamp too. *)
Lemma refresh_loop_stamps `{RegexEngine} `{PyRepr} e rates t items :
  forall processed w w1 r,
    refresh_loop e rates t items processed w = (w1, r) ->
    writes_only_stamped t w w1 /\
    match r with
    | Ok all =>
        exists added,
          all = processed ++ added /\
          length added = length items /\
          Forall (fun d => last_refreshed_at d = t) added
    | Raise _ => True
    end.
Proof.
  induction items as [| cd items IH]; intros processed w w1 r Hrun.
  - simpl in Hrun. inversion Hrun; subst. split; [apply stamped_refl |].
    exists []. rewrite app_nil_r. repeat split. constructor.
  - simpl in Hrun. unfold bind at 1 in Hrun.
    destruct (build_country_doc e rates t cd w) as [wa [d | x]] eqn:Hbuild.
    + pose proof (preserves_build _ _ _ _ _ _ _ Hbuild) as Hsame.
      apply build_cases in Hbuild.
      destruct Hbuild as (c & _ & _ & _ & _ & _ & _ & Ht & _).
      unfold bind at 1 in Hrun. unfold lift at 1 in Hrun.
      destruct (Py.get cd "name" JNull) as [key | x].
      * unfold bind at 1 in Hrun.
        destruct (update_one_upsert (anchored (format_value key)) d wa)
          as [wb [u | x]] eqn:Hup.
        -- apply upsert_writes_stamped in Hup. rewrite Ht in Hup.
           apply IH in Hrun. destruct Hrun as [Hloop Hres].
           split.
           ++ apply stamped_trans with wa;
                [apply stamped_of_same_store; exact Hsame |].
              apply stamped_trans with wb; assumption.
           ++ destruct r as [all | x]; [| exact I].
              destruct Hres as (added & -> & Hlen & Hall).
              exists (d :: added). rewrite <- app_assoc. simpl.
              repeat split; [congruence |]. constructor; assumption.
        -- injection Hrun as <- <-. split; [| exact I].
           apply upsert_writes_stamped in Hup. rewrite Ht in Hup.
           apply stamped_trans with wa;
             [apply stamped_of_same_store; exact Hsame | exact Hup].
      * injection Hrun as <- <-. split; [| exact I].
        apply stamped_of_same_store. exact Hsame.
    + injection Hrun as <- <-. split; [| exact I].
      apply stamped_of_same_store.
      exact (preserves_build _ _ _ _ _ _ _ Hbuild).
Qed.

(** The records the loop adds to [processed_countries] are, item by item,
    the records [build_country_doc] returns: what is proved of that step
    holds of every record a refresh produces. *)
Lemma refresh_loop_builds `{RegexEngine} `{PyRepr} e rates t items :
  forall processed w w1 all,
    refresh_loop e rates t items processed w = (w1, Ok all) ->
    exists added,
      all = processed ++ added /\
      Forall2
        (fun cd d =>
           exists wa wb, build_country_doc e rates t cd wa = (wb, Ok d))
        items added.
Proof.
  induction items as [| cd items IH]; intros processed w w1 all Hrun.
  - simpl in Hrun. injection Hrun as _ <-.
    exists []. rewrite app_nil_r. split; [reflexivity | constructor].
  - simpl in Hrun.
    apply bind_ok in Hrun. destruct Hrun as (d & wa & Hbuild & Hrun).
    apply bind_ok in Hrun. destruct Hrun as (key & wb & _ & Hrun).
    apply bind_ok in Hrun. destruct Hrun as (u & wc & _ & Hrun).
    apply IH in Hrun. destruct Hrun as (added & -> & Hall).
    exists (d :: added). rewrite <- app_assoc. split; [reflexivity |].
    constructor; [| exact Hall]. exists w, wa. exact Hbuild.
Qed.

(** C4: a refresh that completes has read the clock exactly once; the value
    read is the [last_refreshed_at] of every record it processed and of
    every document it wrote to the collection, the value of the global
    marker, the timestamp shown on the artifact and the timestamp of the
    answer.  A refresh that fails has read the clock at most once, and the
    documents it wrote before failing carry that one value. *)
Theorem one_timestamp_per_cycle `{RegexEngine} `{PyRepr} e w :
  match refresh_body e w with
  | (w', Ok (processed, r)) =>
      refresh_countries e w = (w', Ok r) /\
      clock_reads w' = S (clock_reads w) /\
      Forall (fun d => last_refreshed_at d = utcnow e (clock_reads w))
        processed /\
      (forall s, In s (countries_collection w') ->
                 In s (countries_collection w) \/
                 last_refreshed_at (doc s) = utcnow e (clock_reads w)) /\
      metadata_global w' = Some (utcnow e (clock_reads w)) /\
      response_timestamp r = utcnow e (clock_reads w) /\
      total_countries r = length processed /\
      exists top,
        summary_png w' =
          Some (mk_summary (length processed) (utcnow e (clock_reads w)) top)
  | (w', Raise _) =>
      (clock_reads w' <= S (clock_reads w))%nat /\
      forall s, In s (countries_collection w') ->
                In s (countries_collection w) \/
                last_refreshed_at (doc s) = utcnow e (clock_reads w)
  end.
Proof.
  destruct (refresh_body e w) as [w' [[processed r] | x]] eqn:Hbody.
  - assert (Hanswer : refresh_countries e w = (w', Ok r))
      by (unfold refresh_countries; rewrite Hbody; reflexivity).
    split; [exact Hanswer |]. clear Hanswer.
    unfold refresh_body in Hbody.
    apply bind_ok in Hbody. destruct Hbody as (countries & w0 & Hc & Hbody).
    apply lift_ok in Hc. destruct Hc as [_ ->].
    apply bind_ok in Hbody. destruct Hbody as (rates & w0 & Hr & Hbody).
    apply lift_ok in Hr. destruct Hr as [_ ->].
    apply bind_ok in Hbody. destruct Hbody as (t & w0 & Ht & Hbody).
    unfold read_clock in Ht. injection Ht as <- <-.
    apply bind_ok in Hbody. destruct Hbody as (items & w0 & Hi & Hbody).
    apply lift_ok in Hi. destruct Hi as [_ ->].
    apply bind_ok in Hbody. destruct Hbody as (all & w1 & Hloop & Hbody).
    apply refresh_loop_stamps in Hloop.
    destruct Hloop as [(Hclock & Hmeta & Hpng & Hdocs) Hres].
    destruct Hres as (added & -> & _ & Hall).
    simpl in Hclock, Hdocs, Hall.
    apply bind_ok in Hbody. destruct Hbody as (u & w2 & Hmark & Hbody).
    unfold set_global_marker in Hmark. injection Hmark as <- _.
    apply bind_ok in Hbody. destruct Hbody as (u' & w3 & Himage & Hbody).
    apply ret_ok in Hbody. destruct Hbody as [Hans ->].
    injection Hans as -> ->.
    apply image_ok in Himage. destruct Himage as (top & _ & _ & ->). simpl.
    repeat split; try assumption. exists top. reflexivity.
  - unfold refresh_body in Hbody.
    apply bind_raise in Hbody.
    destruct Hbody as [Hc | (countries & w0 & Hc & Hbody)];
      [injection Hc as <- _; split;
         [apply Nat.le_succ_diag_r | intros s Hs; left; exact Hs] |].
    injection Hc as <- _.
    apply bind_raise in Hbody.
    destruct Hbody as [Hr | (rates & w0 & Hr & Hbody)];
      [injection Hr as <- _; split;
         [apply Nat.le_succ_diag_r | intros s Hs; left; exact Hs] |].
    injection Hr as <- _.
    apply bind_raise in Hbody.
    destruct Hbody as [Ht | (t & w0 & Ht & Hbody)]; [discriminate Ht |].
    unfold read_clock in Ht. injection Ht as <- <-.
    apply bind_raise in Hbody.
    destruct Hbody as [Hi | (items & w0 & Hi & Hbody)];
      [injection Hi as <- _; split;
         [apply Nat.le_refl | intros s Hs; left; exact Hs] |].
    injection Hi as <- _.
    apply bind_raise in Hbody.
    destruct Hbody as [Hloop | (all & w1 & Hloop & Hbody)].
    + apply refresh_loop_stamps in Hloop.
      destruct Hloop as [(Hclock & _ & _ & Hdocs) _].
      simpl in Hclock, Hdocs. split; [rewrite Hclock; apply Nat.le_refl |].
      exact Hdocs.
    + apply refresh_loop_stamps in Hloop.
      destruct Hloop as [(Hclock & _ & _ & Hdocs) _].
      simpl in Hclock, Hdocs.
      apply bind_raise in Hbody.
      destruct Hbody as [Hmark | (u & w2 & Hmark & Hbody)];
        [discriminate Hmark |].
      unfold set_global_marker in Hmark. injection Hmark as <- _.
      apply bind_raise in Hbody.
      destruct Hbody as [Himage | (u' & w3 & _ & Hbody)];
        [| discriminate Hbody].
      apply image_raise in Himage. destruct Himage as [-> _]. simpl.
      split; [rewrite Hclock; apply Nat.le_refl | exact Hdocs].
Qed.

(** ** C9: the five countries of the summary *)


















(** ** What the unescaped pattern does on plain names

    The departures of C6 and C7 need a metacharacter: on a text without one
    the sample engine compares up to case. *)

Lemma nonempty_one {A B} (f : A -> list B) x :
  Pcre.nonempty (flat_map f [x]) = Pcre.nonempty (f x).
Proof. simpl. rewrite app_nil_r. reflexivity. Qed.

Lemma matches_literal n text :
  forall rest,
    Pcre.nonempty
      (Pcre.matches n (literal text (Pcre.Cat Pcre.Eol Pcre.Eps)) rest) =
    ci_chars text rest || ci_chars (text ++ [Pcre.newline]) rest.
Proof.
  induction text as [| c text IH]; intros rest.
  - destruct rest as [| d [| d' rest]]; simpl.
    + reflexivity.
    + destruct d as [[] [] [] [] [] [] [] []]; reflexivity.
    + rewrite andb_false_r. reflexivity.
  - destruct rest as [| d rest]; [reflexivity |].
    cbn [literal app ci_chars].
    change (Pcre.matches n (Pcre.Cat (Pcre.Chr c)
              (literal text (Pcre.Cat Pcre.Eol Pcre.Eps))) (d :: rest))
      with (flat_map
              (fun t => Pcre.matches n
                          (literal text (Pcre.Cat Pcre.Eol Pcre.Eps)) t)
              (if Ascii.eqb (Pcre.lower c) (Pcre.lower d)
               then [rest] else [])).
    destruct (Ascii.eqb (Pcre.lower c) (Pcre.lower d)).
    + rewrite nonempty_one. apply IH.
    + reflexivity.
Qed.

Lemma search_from_step n r rest :
  Pcre.search_from n r rest =
  Pcre.nonempty (Pcre.matches n r rest) ||
  match rest with
  | [] => false
  | _ :: t => Pcre.search_from n r t
  end.
Proof. destruct rest; reflexivity. Qed.

Lemma matches_at_start n r rest :
  Pcre.matches n (Pcre.Cat Pcre.Bol r) rest =
  flat_map (fun t => Pcre.matches n r t)
    (if Nat.eqb (length rest) n then [rest] else []).
Proof. reflexivity. Qed.

Lemma search_after_start n r :
  forall rest, (length rest < n)%nat ->
    Pcre.search_from n (Pcre.Cat Pcre.Bol r) rest = false.
Proof.
  induction rest as [| d rest IH]; intros Hlt;
    rewrite search_from_step, matches_at_start;
    (replace (Nat.eqb (length _) n) with false
       by (symmetry; apply Nat.eqb_neq; lia)).
  - reflexivity.
  - apply IH. simpl in Hlt. lia.
Qed.

Lemma search_anchored r subject :
  Pcre.search (Pcre.Cat Pcre.Bol r) subject =
  Pcre.nonempty
    (Pcre.matches (length (list_ascii_of_string subject)) r
       (list_ascii_of_string subject)).
Proof.
  unfold Pcre.search. generalize (list_ascii_of_string subject). intros s.
  rewrite search_from_step, matches_at_start, Nat.eqb_refl, nonempty_one.
  destruct s as [| d s]; [apply orb_false_r |].
  rewrite search_after_start; [apply orb_false_r | simpl; lia].
Qed.

Lemma not_special c x :
  Pcre.is_special c = false ->
  In x (list_ascii_of_string "\^$.[]|()?*+{}") ->
  Ascii.eqb c x = false.
Proof.
  unfold Pcre.is_special. intros Hc Hx.
  destruct (Ascii.eqb c x) eqn:Heq; [| reflexivity].
  rewrite <- Hc. symmetry. apply existsb_exists. exists x. auto.
Qed.

Lemma plain_not_quantifier c : plain c = true -> Pcre.is_quantifier c = false.
Proof.
  unfold plain, Pcre.is_quantifier. intros H.
  apply andb_true_iff in H. destruct H as [H _]. apply negb_true_iff in H.
  rewrite !(not_special c _ H) by (simpl; tauto). reflexivity.
Qed.

Lemma quantified_plain r b c rest :
  Pcre.is_quantifier c = false ->
  Pcre.quantified r b (c :: rest) = Some (r, c :: rest).
Proof. unfold Pcre.quantified. intros ->. reflexivity. Qed.

Lemma parse_item_plain fuel c d rest :
  plain c = true -> Pcre.is_quantifier d = false ->
  Pcre.parse_item (S fuel) (c :: d :: rest) = Some (Pcre.Chr c, d :: rest).
Proof.
  intros Hc Hd. pose proof Hc as Hplain. unfold plain in Hc.
  apply andb_true_iff in Hc. destruct Hc as [Hs Ha].
  apply negb_true_iff in Hs.
  cbn [Pcre.parse_item].
  rewrite !(not_special c _ Hs) by (simpl; tauto).
  rewrite Hs.
  apply Nat.ltb_lt in Ha.
  replace (128 <=? nat_of_ascii c)%nat with false
    by (symmetry; apply Nat.leb_gt; exact Ha).
  apply quantified_plain. exact Hd.
Qed.

Lemma chars_of_append a b :
  list_ascii_of_string (a ++ b) =
  list_ascii_of_string a ++ list_ascii_of_string b.
Proof. induction a as [| c a IH]; simpl; [| rewrite IH]; reflexivity. Qed.

Lemma head_not_quantifier text :
  forallb plain text = true ->
  exists d rest,
    text ++ ["$"%char] = d :: rest /\ Pcre.is_quantifier d = false.
Proof.
  destruct text as [| c text]; simpl; intros H.
  - exists "$"%char, []. split; reflexivity.
  - apply andb_true_iff in H. destruct H as [Hc _].
    exists c, (text ++ ["$"%char]). split; [reflexivity |].
    apply plain_not_quantifier. exact Hc.
Qed.

Lemma parse_cat_step fuel c s :
  Pcre.parse_cat (S fuel) (c :: s) =
  if Ascii.eqb c "|" || Ascii.eqb c ")" then Some (Pcre.Eps, c :: s)
  else match Pcre.parse_item fuel (c :: s) with
       | Some (r, s') =>
           match Pcre.parse_cat fuel s' with
           | Some (r', s'') => Some (Pcre.Cat r r', s'')
           | None => None
           end
       | None => None
       end.
Proof. reflexivity. Qed.

Lemma parse_cat_literal text :
  forall fuel,
    forallb plain text = true ->
    (length text + 2 <= fuel)%nat ->
    Pcre.parse_cat fuel (text ++ ["$"%char]) =
      Some (literal text (Pcre.Cat Pcre.Eol Pcre.Eps), []).
Proof.
  induction text as [| c text IH]; intros fuel Hplain Hfuel.
  - destruct fuel as [| [| fuel]]; [simpl in Hfuel; lia .. |]. reflexivity.
  - simpl in Hplain. apply andb_true_iff in Hplain.
    destruct Hplain as [Hc Htext].
    destruct fuel as [| [| fuel]]; [simpl in Hfuel; lia .. |].
    destruct (head_not_quantifier text Htext) as (d & rest & Hhead & Hd).
    assert (Hs : Pcre.is_special c = false).
    { unfold plain in Hc. apply andb_true_iff in Hc.
      apply negb_true_iff. exact (proj1 Hc). }
    change ((c :: text) ++ ["$"%char]) with (c :: (text ++ ["$"%char])).
    rewrite parse_cat_step.
    rewrite !(not_special c _ Hs) by (simpl; tauto).
    cbn [orb]. rewrite Hhead.
    rewrite (parse_item_plain fuel c d rest Hc Hd).
    rewrite <- Hhead.
    rewrite IH; [reflexivity | exact Htext |].
    simpl in Hfuel. lia.
Qed.

Lemma parse_anchored_plain text :
  plain_text text = true ->
  Pcre.parse (anchored text) =
    Some (Pcre.Cat Pcre.Bol
            (literal (list_ascii_of_string text)
               (Pcre.Cat Pcre.Eol Pcre.Eps))).
Proof.
  unfold plain_text, Pcre.parse, anchored. intros Hplain.
  change ("^" ++ text ++ "$")%string with (String "^" (text ++ "$")%string).
  cbn [list_ascii_of_string]. rewrite chars_of_append.
  change (list_ascii_of_string "$") with ["$"%char].
  set (t := list_ascii_of_string text) in *.
  destruct (head_not_quantifier t Hplain) as (d & rest & Hhead & Hd).
  assert (Hlen : length ("^"%char :: t ++ ["$"%char]) = S (S (length t)))
    by (simpl; rewrite length_app; simpl; lia).
  rewrite Hlen.
  replace (3 * S (S (length t)) + 3)%nat
    with (S (S (S (3 * length t + 6)))) by lia.
  assert (Hcat : Pcre.parse_cat (S (S (3 * length t + 6)))
                   ("^"%char :: t ++ ["$"%char]) =
                 Some (Pcre.Cat Pcre.Bol
                         (literal t (Pcre.Cat Pcre.Eol Pcre.Eps)), [])).
  { rewrite parse_cat_step.
    change (Ascii.eqb "^" "|" || Ascii.eqb "^" ")") with false.
    cbv iota. rewrite Hhead.
    assert (Hitem : Pcre.parse_item (S (3 * length t + 6))
                      ("^"%char :: d :: rest) = Some (Pcre.Bol, d :: rest))
      by (cbn [Pcre.parse_item]; apply quantified_plain; exact Hd).
    rewrite Hitem, <- Hhead.
    rewrite parse_cat_literal; [reflexivity | exact Hplain | lia]. }
  change (Pcre.parse_alt (S (S (S (3 * length t + 6))))
            ("^"%char :: t ++ ["$"%char]))
    with (match Pcre.parse_cat (S (S (3 * length t + 6)))
                  ("^"%char :: t ++ ["$"%char]) with
          | Some (r, c :: s') =>
              if Ascii.eqb c "|"
              then match Pcre.parse_alt (S (S (3 * length t + 6))) s' with
                   | Some (r', s'') => Some (Pcre.Alt r r', s'')
                   | None => None
                   end
              else Some (r, c :: s')
          | other => other
          end).
  rewrite Hcat. reflexivity.
Qed.

(** On a name without metacharacters the sample engine decides equality up
    to case, with the one exception PCRE's [$] makes: a final newline of the
    subject is ignored. *)
Lemma plain_pattern_is_equality text :
  plain_text text = true ->
  exists m,
    regex_i (RegexEngine := Pcre.engine) (anchored text) = Some m /\
    forall subject,
      m subject =
      Pcre.ascii_only subject &&
      (ci_equal text subject ||
       ci_equal (text ++ String Pcre.newline "") subject).
Proof.
  intros Hplain. simpl. unfold Pcre.compile.
  rewrite (parse_anchored_plain text Hplain).
  eexists. split; [reflexivity |]. intros subject. cbv beta.
  rewrite search_anchored, matches_literal.
  unfold ci_equal. rewrite chars_of_append. reflexivity.
Qed.

Lemma field_matches_ext m m' v :
  (forall s, m s = m' s) -> field_matches m v = field_matches m' v.
Proof.
  intros Hext. destruct v; simpl; try reflexivity; [apply Hext |].
  induction items as [| x items IH]; simpl; [reflexivity |].
  rewrite IH. destruct x; try reflexivity. rewrite Hext. reflexivity.
Qed.

Lemma find_ext {A} (f g : A -> bool) l :
  (forall a, f a = g a) -> find f l = find g l.
Proof.
  intros Hext. induction l as [| a l IH]; simpl; [reflexivity |].
  rewrite Hext, IH. reflexivity.
Qed.

(** With the sample engine, a lookup by a name without metacharacters
    returns the first stored record whose name equals it up to case (or up
    to case and a final newline), and 404 when there is none. *)
Lemma plain_name_lookup name w :
  plain_text name = true ->
  get_country (H := Pcre.engine) name w =
  match
    find (fun s =>
            field_matches
              (fun n => Pcre.ascii_only n &&
                        (ci_equal name n ||
                         ci_equal (name ++ String Pcre.newline "") n))
              (stored_name s))
      (countries_collection w)
  with
  | Some country => Ok country
  | None => Raise not_found
  end.
Proof.
  intros Hplain. unfold get_country.
  destruct (plain_pattern_is_equality name Hplain) as (m & -> & Hm).
  rewrite (find_ext _
             (fun s =>
                field_matches
                  (fun n => Pcre.ascii_only n &&
                            (ci_equal name n ||
                             ci_equal (name ++ String Pcre.newline "") n))
                  (stored_name s))); [reflexivity |].
  intros s. apply field_matches_ext. exact Hm.
Qed.

(** With the sample engine, a listing by a region without metacharacters
    holds exactly the stored records whose region equals it up to case (or
    up to case and a final newline), in the store's order. *)
Lemma plain_region_listing `{CursorSort} region w :
  plain_text region = true ->
  region <> "" ->
  get_countries (H := Pcre.engine) (Some region) None None w =
  Ok (filter
        (fun s =>
           field_matches
             (fun n => Pcre.ascii_only n &&
                       (ci_equal region n ||
                        ci_equal (region ++ String Pcre.newline "") n))
             (stored_region s))
        (countries_collection w)).
Proof.
  intros Hplain Hne. unfold get_countries, condition.
  apply String.eqb_neq in Hne. rewrite Hne.
  destruct (plain_pattern_is_equality region Hplain) as (m & -> & Hm).
  cbn [sort_criteria satisfies]. f_equal.
  apply filter_ext. intros s. rewrite andb_true_r.
  apply field_matches_ext. exact Hm.
Qed.

(** ** A complete refresh *)

(** One country in the currency TST at the rate 2: the refresh stores its
    record with an estimate in [[500000000, 1000000000)], sets the marker,
    writes the artifact and answers with the count and the timestamp; the
    record is then found under its name in any case. *)
Example refresh_of_testland `{PyRepr} :
  @refresh_countries Pcre.engine _ Sample.e_testland Sample.w =
    (mk_world [mk_stored 0 Sample.testland_doc] (Some 1700000000%Z) 1
       (Some (mk_summary 1 1700000000%Z [Sample.testland_doc])) 1 1,
     Ok (mk_refresh_response 1 1700000000%Z)) /\
  @get_country Pcre.engine "TESTLAND"
    (fst (@refresh_countries Pcre.engine _ Sample.e_testland Sample.w)) =
    Ok (mk_stored 0 Sample.testland_doc) /\
  (500000000 <= 750000000 /\ 750000000 < 1000000000)%Q.
Proof.
  split; [vm_compute; reflexivity |].
  split; [vm_compute; reflexivity |].
  split; [discriminate | reflexivity].
Qed.

(** * Further properties of the service *)

(** ** Deleting and looking up *)

Lemma find_splits {A} (p : A -> bool) l s :
  find p l = Some s ->
  exists before after,
    l = before ++ s :: after /\
    Forall (fun x => p x = false) before /\
    p s = true.
Proof.
  induction l as [| a l IH]; simpl; [discriminate |].
  destruct (p a) eqn:Hpa; intros Hfind.
  - injection Hfind as <-. exists [], l. repeat split; [constructor | exact Hpa].
  - destruct (IH Hfind) as (before & after & -> & Hnone & Hs).
    exists (a :: before), after. repeat split; [| exact Hs].
    constructor; assumption.
Qed.

Lemma delete_first_at p before s after :
  Forall (fun x => p x = false) before ->
  p s = true ->
  delete_first p (before ++ s :: after) = Some (before ++ after).
Proof.
  induction 1 as [| a before Ha Hbefore IH]; intros Hs; simpl.
  - rewrite Hs. reflexivity.
  - rewrite Ha, (IH Hs). reflexivity.
Qed.

Lemma delete_first_none p l :
  find p l = None -> delete_first p l = None.
Proof.
  induction l as [| a l IH]; simpl; [reflexivity |].
  destruct (p a); [discriminate |]. intros Hfind. rewrite (IH Hfind).
  reflexivity.
Qed.

(** X1: [delete_country] removes the very document [get_country] returns
    for the same name, the first match in the store's order, and leaves the
    marker, the artifact and the other documents alone; when the lookup
    fails, with 404 or with 500, the deletion fails the same way and
    changes nothing. *)
Theorem delete_removes_what_lookup_finds `{RegexEngine} name w :
  match get_country name w with
  | Ok s =>
      exists before after,
        countries_collection w = before ++ s :: after /\
        delete_country name w =
          (with_collection (before ++ after) w, Ok (deleted_message name))
  | Raise x => delete_country name w = (w, Raise x)
  end.
Proof.
  unfold get_country, delete_country.
  destruct (regex_i (anchored name)) as [m |]; [| reflexivity].
  destruct (find _ (countries_collection w)) as [s |] eqn:Hfind.
  - destruct (find_splits _ _ _ Hfind) as (before & after & Hl & Hnone & Hs).
    exists before, after. split; [exact Hl |].
    rewrite Hl, (delete_first_at _ _ _ _ Hnone Hs). reflexivity.
  - rewrite (delete_first_none _ _ Hfind). reflexivity.
Qed.

Lemma delete_first_shrinks p l l' :
  delete_first p l = Some l' ->
  S (length l') = length l /\ (forall s, In s l' -> In s l).
Proof.
  revert l'. induction l as [| a l IH]; simpl; [discriminate |].
  intros l' Hdel. destruct (p a).
  - injection Hdel as <-. split; [reflexivity | auto].
  - destruct (delete_first p l) as [l'' |]; [| discriminate Hdel].
    injection Hdel as <-. destruct (IH l'' eq_refl) as [Hlen Hin].
    split; [simpl; rewrite Hlen; reflexivity |].
    intros s [<- | Hs]; [left; reflexivity | right; exact (Hin s Hs)].
Qed.

(** X2: a deletion that succeeds removes exactly one document and adds
    none, so the count [get_status] reports drops by one while its
    timestamp and the artifact stay; a deletion that fails answers 404 (no
    match) or 500 (pattern rejected) and changes nothing. *)
Theorem delete_lowers_the_count_by_one `{RegexEngine} name w :
  match delete_country name w with
  | (w', Ok _) =>
      S (length (countries_collection w')) = length (countries_collection w) /\
      (forall s, In s (countries_collection w') ->
                 In s (countries_collection w)) /\
      get_status w' =
        Ok (mk_status_response (length (countries_collection w) - 1)
              (metadata_global w)) /\
      get_summary_image w' = get_summary_image w
  | (w', Raise x) =>
      w' = w /\ (x = not_found \/ x = opaque_internal_error)
  end.
Proof.
  unfold delete_country.
  destruct (regex_i (anchored name)) as [m |]; [| split; auto].
  destruct (delete_first _ (countries_collection w)) as [l |] eqn:Hdel;
    [| split; auto].
  destruct (delete_first_shrinks _ _ _ Hdel) as [Hlen Hin].
  split; [exact Hlen |]. split; [exact Hin |].
  split; [| reflexivity].
  unfold get_status. simpl. rewrite <- Hlen. simpl.
  rewrite Nat.sub_0_r. reflexivity.
Qed.

(** ** Upserting and looking up *)

Lemma set_first_at p d before s after :
  Forall (fun x => p x = false) before ->
  p s = true ->
  set_first p d (before ++ s :: after) =
    Some (before ++ mk_stored (oid s) d :: after).
Proof.
  induction 1 as [| a before Ha Hbefore IH]; intros Hs; simpl.
  - rewrite Hs. reflexivity.
  - rewrite Ha, (IH Hs). reflexivity.
Qed.

Lemma set_first_none p d l :
  find p l = None -> set_first p d l = None.
Proof.
  induction l as [| a l IH]; simpl; [reflexivity |].
  destruct (p a); [discriminate |]. intros Hfind. rewrite (IH Hfind).
  reflexivity.
Qed.

Lemma find_none_all {A} (p : A -> bool) l :
  find p l = None -> Forall (fun x => p x = false) l.
Proof.
  induction l as [| a l IH]; simpl; [constructor |].
  destruct (p a) eqn:Hpa; [discriminate |]. intros Hfind.
  constructor; [exact Hpa | exact (IH Hfind)].
Qed.

Lemma find_at {A} (p : A -> bool) before s after :
  Forall (fun x => p x = false) before ->
  p s = true ->
  find p (before ++ s :: after) = Some s.
Proof.
  induction 1 as [| a before Ha Hbefore IH]; intros Hs; simpl.
  - rewrite Hs. reflexivity.
  - rewrite Ha. exact (IH Hs).
Qed.

(** The collection after an upsert: the first match overwritten in place,
    or the record appended under the next identifier. *)
Lemma upsert_outcome `{RegexEngine} pattern m d w :
  regex_i pattern = Some m ->
  let p := fun s => field_matches m (stored_name s) in
  (exists before s after,
     countries_collection w = before ++ s :: after /\
     Forall (fun x => p x = false) before /\ p s = true /\
     update_one_upsert pattern d w =
       (with_collection (before ++ mk_stored (oid s) d :: after) w, Ok tt)) \/
  (Forall (fun x => p x = false) (countries_collection w) /\
   update_one_upsert pattern d w =
     (mk_world (countries_collection w ++ [mk_stored (next_oid w) d])
        (metadata_global w) (S (next_oid w)) (summary_png w)
        (clock_reads w) (uniform_draws w), Ok tt)).
Proof.
  intros Hm p. unfold update_one_upsert. rewrite Hm. fold p.
  destruct (find p (countries_collection w)) as [s |] eqn:Hfind.
  - left. destruct (find_splits _ _ _ Hfind) as (before & after & Hl & Hn & Hs).
    exists before, s, after. repeat split; try assumption.
    rewrite Hl, (set_first_at p d _ _ _ Hn Hs). reflexivity.
  - right. split; [exact (find_none_all _ _ Hfind) |].
    rewrite (set_first_none p d _ Hfind). reflexivity.
Qed.

(** X3: after an upsert whose pattern matches the name of the record it
    writes, a lookup by the same name returns that record: the filter of
    the upsert and the filter of the lookup select the same document. *)
Theorem upsert_then_lookup `{RegexEngine} n m d w :
  regex_i (anchored n) = Some m ->
  field_matches m (name d) = true ->
  exists w' s,
    update_one_upsert (anchored n) d w = (w', Ok tt) /\
    get_country n w' = Ok s /\
    doc s = d.
Proof.
  intros Hm Hd.
  destruct (upsert_outcome (anchored n) m d w Hm)
    as [(before & s & after & Hl & Hnone & Hs & Hrun) | [Hnone Hrun]];
    rewrite Hrun; eexists; eexists; (split; [reflexivity |]);
    unfold get_country; rewrite Hm; simpl.
  - rewrite (find_at _ before (mk_stored (oid s) d) after Hnone Hd).
    split; reflexivity.
  - rewrite (find_at _ (countries_collection w) (mk_stored (next_oid w) d) []
               Hnone Hd).
    split; reflexivity.
Qed.

Lemma upsert_then_lookup_witness :
  exists w' s,
    @update_one_upsert Pcre.engine (anchored "Testland") Sample.testland_doc
      Sample.w_store = (w', Ok tt) /\
    @get_country Pcre.engine "Testland" w' = Ok s /\
    doc s = Sample.testland_doc.
Proof.
  destruct (Pcre.compile (anchored "Testland")) as [m |] eqn:Hm;
    [| discriminate Hm].
  apply (@upsert_then_lookup Pcre.engine "Testland" m Sample.testland_doc
           Sample.w_store Hm).
  injection Hm as <-. reflexivity.
Defined.

Lemma upsert_stores_the_record `{RegexEngine} pattern d w w1 :
  update_one_upsert pattern d w = (w1, Ok tt) ->
  exists s, In s (countries_collection w1) /\ doc s = d.
Proof.
  intros Hrun.
  destruct (regex_i pattern) as [m |] eqn:Hm;
    [| unfold update_one_upsert in Hrun; rewrite Hm in Hrun;
       discriminate Hrun].
  destruct (upsert_outcome pattern m d w Hm)
    as [(before & s & after & _ & _ & _ & Hrun') | [_ Hrun']];
    rewrite Hrun' in Hrun; injection Hrun as <-; simpl.
  - exists (mk_stored (oid s) d). split; [| reflexivity].
    apply in_or_app. right. left. reflexivity.
  - exists (mk_stored (next_oid w) d). split; [| reflexivity].
    apply in_or_app. right. left. reflexivity.
Qed.

Lemma find_some_of_in {A} (p : A -> bool) l s :
  In s l -> p s = true -> exists s', find p l = Some s'.
Proof.
  induction l as [| a l IH]; simpl; [tauto |].
  intros Hin Hs. destruct (p a) eqn:Hpa; [eauto |].
  destruct Hin as [-> | Hin]; [congruence | exact (IH Hin Hs)].
Qed.

(** X4: a second upsert whose pattern matches the name written by the
    first one adds no document: it overwrites a stored document in place,
    the identifiers and their order stay, no identifier is issued, and the
    second record is in the collection. *)
Theorem second_upsert_overwrites `{RegexEngine} p1 p2 m2 d1 d2 w w1 :
  update_one_upsert p1 d1 w = (w1, Ok tt) ->
  regex_i p2 = Some m2 ->
  field_matches m2 (name d1) = true ->
  exists w2,
    update_one_upsert p2 d2 w1 = (w2, Ok tt) /\
    map oid (countries_collection w2) = map oid (countries_collection w1) /\
    next_oid w2 = next_oid w1 /\
    exists s, In s (countries_collection w2) /\ doc s = d2.
Proof.
  intros Hfirst Hm2 Hmatch.
  destruct (upsert_stores_the_record _ _ _ _ Hfirst) as (s1 & Hin & Hdoc).
  destruct (upsert_outcome p2 m2 d2 w1 Hm2)
    as [(before & s & after & Hl & _ & _ & Hrun) | [Hnone _]].
  - rewrite Hrun. eexists. split; [reflexivity |]. simpl.
    split; [rewrite Hl, !map_app; reflexivity |].
    split; [reflexivity |].
    exists (mk_stored (oid s) d2). split; [| reflexivity].
    apply in_or_app. right. left. reflexivity.
  - exfalso. rewrite Forall_forall in Hnone. specialize (Hnone s1 Hin).
    unfold stored_name in Hnone. rewrite Hdoc, Hmatch in Hnone.
    discriminate Hnone.
Qed.

Lemma second_upsert_overwrites_witness :
  exists w1 w2,
    @update_one_upsert Pcre.engine "^Testland$" Sample.testland_doc Sample.w
      = (w1, Ok tt) /\
    @update_one_upsert Pcre.engine "^TESTLAND$" (Sample.no_currency "TESTLAND")
      w1 = (w2, Ok tt) /\
    map oid (countries_collection w2) = map oid (countries_collection w1) /\
    next_oid w2 = next_oid w1 /\
    exists s, In s (countries_collection w2) /\
              doc s = Sample.no_currency "TESTLAND".
Proof.
  destruct (@update_one_upsert Pcre.engine "^Testland$" Sample.testland_doc
              Sample.w) as [w1 [[] | x]] eqn:Hfirst; [| discriminate Hfirst].
  destruct (Pcre.compile "^TESTLAND$") as [m2 |] eqn:Hm2;
    [| discriminate Hm2].
  exists w1.
  destruct (@second_upsert_overwrites Pcre.engine "^Testland$" "^TESTLAND$"
              m2 Sample.testland_doc (Sample.no_currency "TESTLAND")
              Sample.w w1 Hfirst Hm2) as (w2 & Hrun & Hrest).
  - injection Hm2 as <-. reflexivity.
  - exists w2. split; [reflexivity |]. split; [exact Hrun | exact Hrest].
Defined.

(** ** The refresh, step by step *)

(** The pattern under which the loop upserts a raw record. *)
Lemma build_ok_is_object e rates t cd w wa d :
  build_country_doc e rates t cd w = (wa, Ok d) ->
  exists c, cd = JObj c /\ name d = copied c "name" JNull.
Proof.
  intros Hbuild. apply build_cases in Hbuild.
  destruct Hbuild as (c & Hc & Hname & _). exists c. auto.
Qed.

(** One turn of the loop: the record is built, upserted under the pattern
    made of its name, and the loop goes on; or one of the two raises and
    the loop stops there. *)
Lemma refresh_loop_turn `{RegexEngine} `{PyRepr} e rates t cd items acc w w1 r :
  refresh_loop e rates t (cd :: items) acc w = (w1, r) ->
  (exists wa d wb,
     build_country_doc e rates t cd w = (wa, Ok d) /\
     update_one_upsert (anchored (format_value (name d))) d wa = (wb, Ok tt) /\
     refresh_loop e rates t items (acc ++ [d]) wb = (w1, r)) \/
  (exists x,
     r = Raise x /\
     (build_country_doc e rates t cd w = (w1, Raise x) \/
      exists wa d,
        build_country_doc e rates t cd w = (wa, Ok d) /\
        update_one_upsert (anchored (format_value (name d))) d wa =
          (w1, Raise x))).
Proof.
  simpl. unfold bind at 1.
  destruct (build_country_doc e rates t cd w) as [wa [d | x]] eqn:Hbuild.
  - destruct (build_ok_is_object _ _ _ _ _ _ _ Hbuild) as (c & -> & Hname).
    unfold bind at 1, lift at 1. simpl Py.get. fold (copied c "name" JNull).
    rewrite <- Hname. unfold bind at 1.
    destruct (update_one_upsert (anchored (format_value (name d))) d wa)
      as [wb [[] | x]] eqn:Hup; intros Hrun.
    + left. exists wa, d, wb. auto.
    + right. injection Hrun as <- <-. exists x. split; [reflexivity |].
      right. exists wa, d. auto.
  - intros Hrun. injection Hrun as <- <-. right. exists x.
    split; [reflexivity |]. left. reflexivity.
Qed.

(** A relation between worlds that is reflexive, transitive, and holds
    across a derivation and across an upsert, holds across the loop. *)
Lemma refresh_loop_relates `{RegexEngine} `{PyRepr}
    (R : world -> world -> Prop) e rates t :
  (forall w, R w w) ->
  (forall w w1 w2, R w w1 -> R w1 w2 -> R w w2) ->
  (forall w w1, same_store w w1 -> R w w1) ->
  (forall pattern d w w1 r, update_one_upsert pattern d w = (w1, r) -> R w w1) ->
  forall items acc w w1 r,
    refresh_loop e rates t items acc w = (w1, r) -> R w w1.
Proof.
  intros Hrefl Htrans Hsame Hup.
  induction items as [| cd items IH]; intros acc w w1 r Hrun.
  - simpl in Hrun. injection Hrun as <- _. apply Hrefl.
  - apply refresh_loop_turn in Hrun.
    destruct Hrun as [(wa & d & wb & Hbuild & Hupsert & Hrest)
                     | (x & _ & [Hbuild | (wa & d & Hbuild & Hupsert)])].
    + apply Htrans with wa;
        [apply Hsame; exact (preserves_build _ _ _ _ _ _ _ Hbuild) |].
      apply Htrans with wb; [exact (Hup _ _ _ _ _ Hupsert) |].
      exact (IH _ _ _ _ Hrest).
    + apply Hsame. exact (preserves_build _ _ _ _ _ _ _ Hbuild).
    + apply Htrans with wa;
        [apply Hsame; exact (preserves_build _ _ _ _ _ _ _ Hbuild) |].
      exact (Hup _ _ _ _ _ Hupsert).
Qed.

(** A refresh that completes: both fetches succeeded, the clock was read,
    the loop went through the payload, and the marker and the artifact were
    written after it. *)
Lemma refresh_body_ok `{RegexEngine} `{PyRepr} e w w' processed r :
  refresh_body e w = (w', Ok (processed, r)) ->
  exists countries rates items w1 top,
    fetch_countries_data e = Ok countries /\
    fetch_exchange_rates e = Ok rates /\
    Py.iter countries = Ok items /\
    refresh_loop e rates (utcnow e (clock_reads w)) items [] (ticked w) =
      (w1, Ok processed) /\
    top_countries processed = Ok top /\
    w' = published (utcnow e (clock_reads w)) processed top w1 /\
    r = mk_refresh_response (length processed) (utcnow e (clock_reads w)) /\
    rendering e
      (mk_summary (length processed) (utcnow e (clock_reads w)) top) = None.
Proof.
  intros Hbody. unfold refresh_body in Hbody.
  apply bind_ok in Hbody. destruct Hbody as (countries & w0 & Hc & Hbody).
  apply lift_ok in Hc. destruct Hc as [Hc ->].
  apply bind_ok in Hbody. destruct Hbody as (rates & w0 & Hr & Hbody).
  apply lift_ok in Hr. destruct Hr as [Hr ->].
  apply bind_ok in Hbody. destruct Hbody as (t & w0 & Ht & Hbody).
  unfold read_clock in Ht. injection Ht as <- <-.
  apply bind_ok in Hbody. destruct Hbody as (items & w0 & Hi & Hbody).
  apply lift_ok in Hi. destruct Hi as [Hi ->].
  apply bind_ok in Hbody. destruct Hbody as (all & w1 & Hloop & Hbody).
  apply bind_ok in Hbody. destruct Hbody as (u & w2 & Hmark & Hbody).
  unfold set_global_marker in Hmark. injection Hmark as <- _.
  apply bind_ok in Hbody. destruct Hbody as (u' & w3 & Himage & Hbody).
  apply ret_ok in Hbody. destruct Hbody as [Hans ->].
  injection Hans as -> ->.
  apply image_ok in Himage. destruct Himage as (top & Htop & Hrender & ->).
  exists countries, rates, items, w1, top.
  repeat split; assumption.
Qed.

(** A refresh that raises stopped at a fetch, at the iteration over the
    payload, in the loop, or, the marker written, at the artifact: at the
    selection or at the rendering. *)
Lemma refresh_body_raise `{RegexEngine} `{PyRepr} e w w' x :
  refresh_body e w = (w', Raise x) ->
  (w' = w /\
   (fetch_countries_data e = Raise x \/
    exists countries,
      fetch_countries_data e = Ok countries /\
      fetch_exchange_rates e = Raise x)) \/
  (exists countries rates,
     fetch_countries_data e = Ok countries /\
     fetch_exchange_rates e = Ok rates /\
     ((w' = ticked w /\ Py.iter countries = Raise x) \/
      exists items,
        Py.iter countries = Ok items /\
        (refresh_loop e rates (utcnow e (clock_reads w)) items [] (ticked w) =
           (w', Raise x) \/
         exists w1 processed,
           refresh_loop e rates (utcnow e (clock_reads w)) items []
             (ticked w) = (w1, Ok processed) /\
           w' = marked (utcnow e (clock_reads w)) w1 /\
           (top_countries processed = Raise x \/
            exists top failure,
              top_countries processed = Ok top /\
              rendering e
                (mk_summary (length processed) (utcnow e (clock_reads w)) top)
                = Some failure /\
              x = PyError failure)))).
Proof.
  intros Hbody. unfold refresh_body in Hbody.
  apply bind_raise in Hbody.
  destruct Hbody as [Hc | (countries & w0 & Hc & Hbody)];
    [injection Hc as <- Hc; left; split; [reflexivity | left; exact Hc] |].
  injection Hc as <- Hc.
  apply bind_raise in Hbody.
  destruct Hbody as [Hr | (rates & w0 & Hr & Hbody)];
    [injection Hr as <- Hr; left; split; [reflexivity |];
     right; exists countries; auto |].
  injection Hr as <- Hr.
  right. exists countries, rates. split; [exact Hc |]. split; [exact Hr |].
  apply bind_raise in Hbody.
  destruct Hbody as [Ht | (t & w0 & Ht & Hbody)]; [discriminate Ht |].
  unfold read_clock in Ht. injection Ht as <- <-.
  apply bind_raise in Hbody.
  destruct Hbody as [Hi | (items & w0 & Hi & Hbody)];
    [injection Hi as <- Hi; left; auto |].
  injection Hi as <- Hi.
  right. exists items. split; [exact Hi |].
  apply bind_raise in Hbody.
  destruct Hbody as [Hloop | (all & w1 & Hloop & Hbody)]; [left; exact Hloop |].
  right. exists w1, all. split; [exact Hloop |].
  apply bind_raise in Hbody.
  destruct Hbody as [Hmark | (u & w2 & Hmark & Hbody)]; [discriminate Hmark |].
  unfold set_global_marker in Hmark. injection Hmark as <- _.
  apply bind_raise in Hbody.
  destruct Hbody as [Himage | (u' & w3 & _ & Hbody)]; [| discriminate Hbody].
  apply image_raise in Himage. destruct Himage as [-> Himage].
  split; [reflexivity | exact Himage].
Qed.

Lemma refresh_countries_ok `{RegexEngine} `{PyRepr} e w w' r :
  refresh_countries e w = (w', Ok r) ->
  exists processed, refresh_body e w = (w', Ok (processed, r)).
Proof.
  unfold refresh_countries.
  destruct (refresh_body e w) as [w0 [[processed r0] | [s d | pe]]];
    intros Hrun; try discriminate Hrun.
  injection Hrun as <- <-. exists processed. reflexivity.
Qed.

Lemma refresh_countries_raise `{RegexEngine} `{PyRepr} e w w' x :
  refresh_countries e w = (w', Raise x) ->
  exists y,
    refresh_body e w = (w', Raise y) /\
    x = match y with
        | HTTPException _ _ => y
        | PyError pe => internal_error pe
        end.
Proof.
  unfold refresh_countries.
  destruct (refresh_body e w) as [w0 [[processed r0] | [s d | pe]]];
    intros Hrun; try discriminate Hrun; injection Hrun as <- <-;
    eexists; split; reflexivity.
Qed.

(** ** What the derivation can raise, and what it hands to the summary *)

Lemma py_only_raises {A} (r : result A) : py_only r -> raises_only_py (lift r).
Proof.
  intros Hr w w1 x Hrun. injection Hrun as _ ->.
  destruct x as [s d | pe]; [destruct Hr | exists pe; reflexivity].
Qed.

Lemma raises_ret {A} (a : A) : raises_only_py (ret a).
Proof. intros w w1 x Hrun. discriminate Hrun. Qed.

Lemma raises_bind {A B} (c : M A) (k : A -> M B) :
  raises_only_py c -> (forall a, raises_only_py (k a)) ->
  raises_only_py (bind c k).
Proof.
  intros Hc Hk w w1 x Hrun. apply bind_raise in Hrun.
  destruct Hrun as [Hrun | (a & w0 & _ & Hrun)];
    [exact (Hc _ _ _ Hrun) | exact (Hk a _ _ _ Hrun)].
Qed.

Lemma raises_random_uniform e : raises_only_py (random_uniform e).
Proof. intros w w1 x Hrun. discriminate Hrun. Qed.

Lemma py_only_get v key default : py_only (Py.get v key default).
Proof. destruct v; exact I. Qed.

Lemma py_only_len v : py_only (Py.len v).
Proof. destruct v; exact I. Qed.

Lemma py_only_list_index l i : py_only (Py.list_index l i).
Proof.
  unfold Py.list_index.
  destruct ((0 <=? _) && _)%Z; [| exact I].
  destruct (nth_error l _); exact I.
Qed.

Lemma py_only_getitem container key : py_only (Py.getitem container key).
Proof.
  destruct container; try exact I; destruct key; try exact I;
    simpl; try apply py_only_list_index.
  destruct (dict_lookup s members); exact I.
Qed.

Lemma py_only_contains x container : py_only (Py.contains x container).
Proof. destruct container; try exact I; destruct x; exact I. Qed.

Lemma py_only_to_float v : py_only (Py.to_float v).
Proof.
  destruct v as [ | b | n | x | s | l | d]; try exact I.
  simpl. destruct (Float64.is_inf _); exact I.
Qed.

Lemma py_only_mul_float a m : py_only (Py.mul_float a m).
Proof.
  unfold Py.mul_float. pose proof (py_only_to_float a) as Ha.
  destruct (Py.to_float a); [exact I | exact Ha].
Qed.

Lemma py_only_truediv x b : py_only (Py.truediv x b).
Proof.
  unfold Py.truediv. pose proof (py_only_to_float b) as Hb.
  destruct (Py.to_float b) as [y |]; [| exact Hb].
  destruct (Qeq_bool y 0); exact I.
Qed.

Ltac raises :=
  repeat first
    [ apply raises_ret
    | apply raises_random_uniform
    | apply py_only_raises;
      first [ apply py_only_get | apply py_only_len | apply py_only_getitem
            | apply py_only_contains | apply py_only_mul_float
            | apply py_only_truediv ]
    | apply raises_bind; [| intros ?]
    | match goal with
      | |- raises_only_py (if ?b then _ else _) => destruct b
      | |- raises_only_py (let '(_, _) := ?p in _) => destruct p
      end ].

Lemma raises_calculate e population rate :
  raises_only_py (calculate_estimated_gdp e population rate).
Proof. unfold calculate_estimated_gdp. raises. Qed.

Lemma raises_derive e rates cd :
  raises_only_py (derive_currency_fields e rates cd).
Proof. unfold derive_currency_fields. raises. apply raises_calculate. Qed.

Lemma raises_build e rates t cd :
  raises_only_py (build_country_doc e rates t cd).
Proof.
  unfold build_country_doc. apply raises_bind; [apply raises_derive |].
  intros [[code rate] gdp]. raises.
Qed.

Lemma raises_upsert `{RegexEngine} pattern d :
  raises_only_py (update_one_upsert pattern d).
Proof.
  intros w w1 x. unfold update_one_upsert.
  destruct (regex_i pattern) as [m |].
  - destruct (set_first _ d (countries_collection w)); discriminate.
  - intros Hrun. injection Hrun as _ <-. eexists. reflexivity.
Qed.

Lemma raises_refresh_loop `{RegexEngine} `{PyRepr} e rates t items :
  forall acc, raises_only_py (refresh_loop e rates t items acc).
Proof.
  induction items as [| cd items IH]; intros acc w w1 x Hrun.
  - discriminate Hrun.
  - apply refresh_loop_turn in Hrun.
    destruct Hrun as [(wa & d & wb & _ & _ & Hrest)
                     | (y & Hy & [Hbuild | (wa & d & _ & Hup)])].
    + exact (IH _ _ _ _ Hrest).
    + injection Hy as <-. exact (raises_build _ _ _ _ _ _ _ Hbuild).
    + injection Hy as <-. exact (raises_upsert _ _ _ _ _ Hup).
Qed.

Lemma to_float_raise v x :
  Py.to_float v = Raise x ->
  (x = PyError TypeError /\ Py.as_number v = None) \/
  (x = PyError OverflowError /\
   exists n, v = JInt n /\ fits_a_float n = false).
Proof.
  destruct v as [ | b | n | y | s | l | d]; simpl; intros H;
    try discriminate H; try (injection H as <-; left; split; reflexivity).
  destruct (Float64.is_inf (Float64.round64 (inject_Z n))) eqn:Hinf;
    [| discriminate H].
  injection H as <-. right. split; [reflexivity |].
  exists n. split; [reflexivity |]. unfold fits_a_float. rewrite Hinf.
  reflexivity.
Qed.

(** X5: [calculate_estimated_gdp] raises in two ways only: a [TypeError]
    when the population or the rate is not a number, an [OverflowError]
    when one of them is an integer too large for a float.  The multiplier
    has then been drawn, and no division by zero is ever attempted. *)
Theorem calculate_raises_type_or_overflow e population rate w w' x :
  calculate_estimated_gdp e population rate w = (w', Raise x) ->
  w' = drawn w /\
  rate_is_zero_or_none rate = false /\
  ((x = PyError TypeError /\
    (Py.as_number population = None \/ Py.as_number rate = None)) \/
   (x = PyError OverflowError /\
    exists n, (population = JInt n \/ rate = JInt n) /\
              fits_a_float n = false)).
Proof.
  intros Hrun. apply calculate_raise in Hrun.
  destruct Hrun as (Hz & -> & Hwhere).
  split; [reflexivity |]. split; [exact Hz |].
  destruct Hwhere as [Hp | [_ Hr]].
  - destruct (to_float_raise _ _ Hp) as [[-> Hnone] | (-> & n & -> & Hn)].
    + left. auto.
    + right. split; [reflexivity |]. exists n. auto.
  - destruct (to_float_raise _ _ Hr) as [[-> Hnone] | (-> & n & -> & Hn)].
    + left. auto.
    + right. split; [reflexivity |]. exists n. auto.
Qed.

Lemma calculate_raises_type_or_overflow_witness :
  calculate_estimated_gdp Sample.e (JInt (10 ^ 400)) (JFloat 2) Sample.w
    = (drawn Sample.w, Raise (PyError OverflowError)) /\
  rate_is_zero_or_none (JFloat 2) = false /\
  exists n, (JInt (10 ^ 400) = JInt n \/ JFloat 2 = JInt n) /\
            fits_a_float n = false.
Proof.
  assert (Hrun : calculate_estimated_gdp Sample.e (JInt (10 ^ 400))
                   (JFloat 2) Sample.w
                 = (drawn Sample.w, Raise (PyError OverflowError)))
    by (vm_compute; reflexivity).
  split; [exact Hrun |].
  destruct (calculate_raises_type_or_overflow Sample.e (JInt (10 ^ 400))
              (JFloat 2) Sample.w (drawn Sample.w) (PyError OverflowError)
              Hrun) as (_ & Hz & [[Hx _] | [_ Hn]]).
  - discriminate Hx.
  - split; assumption.
Defined.

Lemma built_estimate_is_null_or_number e rates t d :
  built e rates t d -> null_or_number (estimated_gdp d) = true.
Proof.
  intros (cd & wa & wb & Hbuild). apply build_cases in Hbuild.
  destruct Hbuild as (c & _ & _ & _ & _ & _ & _ & _ & Hpath).
  destruct Hpath as [(_ & -> & _) | (_ & _ & _ & Hcalc)]; [reflexivity |].
  apply calculate_cases in Hcalc.
  destruct Hcalc as [(_ & -> & _) | (_ & p & r & _ & _ & -> & _)];
    reflexivity.
Qed.

Lemma top_countries_of_numbers l :
  Forall (fun d => null_or_number (estimated_gdp d) = true) l ->
  top_countries l = Ok (firstn 5 (sorted_desc (filter has_gdp l))).
Proof.
  intros Hall. unfold top_countries.
  replace (forallb (fun c => is_number (estimated_gdp c)) (filter has_gdp l))
    with true; [reflexivity |].
  symmetry. apply forallb_forall. intros d Hd.
  apply filter_In in Hd. destruct Hd as [Hin Hgdp].
  rewrite Forall_forall in Hall. specialize (Hall d Hin).
  unfold null_or_number in Hall. unfold has_gdp in Hgdp.
  apply negb_true_iff in Hgdp. rewrite Hgdp in Hall. exact Hall.
Qed.



Lemma processed_are_built `{RegexEngine} `{PyRepr} e rates t items w w1 all :
  refresh_loop e rates t items [] w = (w1, Ok all) ->
  length all = length items /\ Forall (built e rates t) all.
Proof.
  intros Hloop. apply refresh_loop_builds in Hloop.
  destruct Hloop as (added & -> & Hall). simpl.
  split; [symmetry; exact (Forall2_length Hall) |].
  clear - Hall. induction Hall as [| cd d items added Hd _ IH];
    constructor; [| exact IH].
  destruct Hd as (wa & wb & Hd). exists cd, wa, wb. exact Hd.
Qed.

(** ** What a failed refresh answers *)

Lemma fetch_countries_raises e x :
  fetch_countries_data e = Raise x ->
  (exists cause, x = unavailable "restcountries.com" cause) \/
  (exists pe, x = PyError pe).
Proof.
  unfold fetch_countries_data.
  destruct (restcountries e) as [cause | [data |]]; intros Hx;
    try discriminate Hx; injection Hx as <-; eauto.
Qed.

Lemma fetch_rates_raises e x :
  fetch_exchange_rates e = Raise x ->
  (exists cause, x = unavailable "open.er-api.com" cause) \/
  (exists pe, x = PyError pe).
Proof.
  unfold fetch_exchange_rates.
  destruct (open_er_api e) as [cause | [data |]]; intros Hx.
  - injection Hx as <-. eauto.
  - right. destruct data; try discriminate Hx; injection Hx as <-; eauto.
  - injection Hx as <-. eauto.
Qed.

Lemma py_only_iter v : py_only (Py.iter v).
Proof. destruct v; exact I. Qed.

Lemma top_countries_of_loop `{RegexEngine} `{PyRepr} e rates t items w w1 all :
  refresh_loop e rates t items [] w = (w1, Ok all) ->
  top_countries all = Ok (firstn 5 (sorted_desc (filter has_gdp all))).
Proof.
  intros Hloop. apply processed_are_built in Hloop.
  destruct Hloop as [_ Hall]. apply top_countries_of_numbers.
  eapply Forall_impl; [| exact Hall].
  intros d Hd. exact (built_estimate_is_null_or_number _ _ _ _ Hd).
Qed.

(** X7: a refresh fails in one of two ways.  It answers 503, naming the
    provider, exactly as a fetch raised it, and then the world is
    untouched; or it answers 500 with the text of a Python exception,
    whatever raised it: a payload of an unexpected shape, the derivation,
    the store or the rendering of the summary.  No other status leaves
    it. *)
Theorem refresh_fails_with_503_or_500 `{RegexEngine} `{PyRepr} e w :
  match refresh_countries e w with
  | (w', Raise x) =>
      (w' = w /\
       exists provider cause,
         x = unavailable provider cause /\
         (fetch_countries_data e = Raise x \/
          fetch_exchange_rates e = Raise x)) \/
      (exists pe, x = internal_error pe)
  | (_, Ok _) => True
  end.
Proof.
  destruct (refresh_countries e w) as [w' [r | x]] eqn:Hrun; [exact I |].
  apply refresh_countries_raise in Hrun. destruct Hrun as (y & Hbody & ->).
  apply refresh_body_raise in Hbody.
  destruct Hbody
    as [[-> [Hc | (countries & _ & Hr)]]
       | (countries & rates & _ & _ &
          [[_ Hi]
          | (items & _ &
             [Hloop
             | (w1 & all & Hloop & _ &
                [Htop | (top & failure & _ & _ & ->)])])])].
  - destruct (fetch_countries_raises _ _ Hc) as [[cause ->] | [pe ->]].
    + left. split; [reflexivity |].
      exists "restcountries.com", cause. split; [reflexivity |].
      left. exact Hc.
    + right. exists pe. reflexivity.
  - destruct (fetch_rates_raises _ _ Hr) as [[cause ->] | [pe ->]].
    + left. split; [reflexivity |].
      exists "open.er-api.com", cause. split; [reflexivity |].
      right. exact Hr.
    + right. exists pe. reflexivity.
  - right. pose proof (py_only_iter countries) as Hpy. rewrite Hi in Hpy.
    destruct y as [s d | pe]; [destruct Hpy | exists pe; reflexivity].
  - right. destruct (raises_refresh_loop _ _ _ _ _ _ _ _ Hloop) as [pe ->].
    exists pe. reflexivity.
  - rewrite (top_countries_of_loop _ _ _ _ _ _ _ Hloop) in Htop.
    discriminate Htop.
  - right. exists failure. reflexivity.
Qed.

(** ** What the status and the image show after a refresh *)

(** X8: the summary image is replaced by a refresh that completes, and
    then [get_summary_image] serves an image with the count and the
    timestamp of the answer, the marker holding the same timestamp.  A
    refresh that fails before the marker is written leaves the marker and
    the image as they were.  The marker is written before the image is
    rendered: a refresh that fails at the rendering has already set the
    marker to its timestamp. *)
Theorem marker_is_written_before_the_image `{RegexEngine} `{PyRepr} e w :
  match refresh_countries e w with
  | (w', Ok r) =>
      metadata_global w' = Some (response_timestamp r) /\
      exists top,
        rendering e
          (mk_summary (total_countries r) (response_timestamp r) top) = None /\
        get_summary_image w' =
          Ok (mk_summary (total_countries r) (response_timestamp r) top)
  | (w', Raise x) =>
      (metadata_global w' = metadata_global w /\
       get_summary_image w' = get_summary_image w) \/
      (metadata_global w' = Some (utcnow e (clock_reads w)) /\
       exists shown failure,
         rendering e shown = Some failure /\
         shown_timestamp shown = utcnow e (clock_reads w) /\
         x = internal_error failure)
  end.
Proof.
  destruct (refresh_countries e w) as [w' [r | x]] eqn:Hrun.
  - apply refresh_countries_ok in Hrun. destruct Hrun as (processed & Hbody).
    apply refresh_body_ok in Hbody.
    destruct Hbody as (countries & rates & items & w1 & top &
                       _ & _ & _ & _ & _ & -> & -> & Hrender).
    split; [reflexivity |]. exists top. split; [exact Hrender | reflexivity].
  - apply refresh_countries_raise in Hrun. destruct Hrun as (y & Hbody & ->).
    apply refresh_body_raise in Hbody.
    destruct Hbody
      as [[-> _]
         | (countries & rates & _ & _ &
            [[-> _]
            | (items & _ &
               [Hloop
               | (w1 & all & Hloop & -> &
                  [Htop | (top & failure & _ & Hrender & ->)])])])].
    + left. split; reflexivity.
    + left. split; reflexivity.
    + left. apply refresh_loop_stamps in Hloop.
      destruct Hloop as [(_ & Hmeta & Hpng & _) _].
      simpl in Hmeta, Hpng. unfold get_summary_image.
      rewrite Hmeta, Hpng. split; reflexivity.
    + rewrite (top_countries_of_loop _ _ _ _ _ _ _ Hloop) in Htop.
      discriminate Htop.
    + right. split; [reflexivity |].
      exists (mk_summary (length all) (utcnow e (clock_reads w)) top), failure.
      split; [exact Hrender |]. split; reflexivity.
Qed.

(** Where the image cannot be saved, the refresh of Testland answers 500
    with the country stored and the marker written, and there is still no
    image to serve. *)
Example refresh_without_image `{PyRepr} :
  @refresh_countries Pcre.engine _ Sample.e_read_only Sample.w =
    (mk_world [mk_stored 0 Sample.testland_doc] (Some 1700000000%Z) 1 None
       1 1,
     Raise (internal_error OSError)) /\
  get_summary_image
    (fst (@refresh_countries Pcre.engine _ Sample.e_read_only Sample.w)) =
    Raise image_not_found.
Proof. split; vm_compute; reflexivity. Qed.

(** ** How much a refresh writes *)

Lemma set_first_oids p d l l' :
  set_first p d l = Some l' -> map oid l' = map oid l.
Proof.
  revert l'. induction l as [| a l IH]; simpl; [discriminate |].
  intros l' Hset. destruct (p a).
  - injection Hset as <-. reflexivity.
  - destruct (set_first p d l) as [l'' |]; [| discriminate Hset].
    injection Hset as <-. simpl. rewrite (IH l'' eq_refl). reflexivity.
Qed.

(** An upsert keeps the identifiers of the collection, in their order, and
    adds at most one, the next to be issued, at the end. *)
Lemma upsert_oids `{RegexEngine} pattern d w w1 r :
  update_one_upsert pattern d w = (w1, r) ->
  (map oid (countries_collection w1) = map oid (countries_collection w) /\
   next_oid w1 = next_oid w) \/
  (map oid (countries_collection w1) =
     map oid (countries_collection w) ++ [next_oid w] /\
   next_oid w1 = S (next_oid w)).
Proof.
  unfold update_one_upsert.
  destruct (regex_i pattern) as [m |];
    [| intros Hrun; injection Hrun as <- _; left; split; reflexivity].
  destruct (set_first _ d (countries_collection w)) as [l |] eqn:Hset;
    intros Hrun; injection Hrun as <- _; simpl.
  - left. split; [exact (set_first_oids _ _ _ _ Hset) | reflexivity].
  - right. rewrite map_app. split; reflexivity.
Qed.

Lemma refresh_loop_growth `{RegexEngine} `{PyRepr} e rates t items :
  forall acc w w1 r,
    refresh_loop e rates t items acc w = (w1, r) ->
    (length (countries_collection w) <= length (countries_collection w1))%nat /\
    (length (countries_collection w1) <=
       length (countries_collection w) + length items)%nat.
Proof.
  assert (Hup : forall pattern d w w1 r,
             update_one_upsert pattern d w = (w1, r) ->
             (length (countries_collection w) <=
                length (countries_collection w1) <=
                S (length (countries_collection w)))%nat).
  { intros pattern d w w1 r Hrun. apply upsert_oids in Hrun.
    destruct Hrun as [[Hids _] | [Hids _]];
      apply (f_equal (@length nat)) in Hids;
      rewrite ?length_app, !length_map in Hids; simpl in Hids; lia. }
  induction items as [| cd items IH]; intros acc w w1 r Hrun.
  - simpl in Hrun. injection Hrun as <- _. simpl. lia.
  - apply refresh_loop_turn in Hrun.
    destruct Hrun as [(wa & d & wb & Hbuild & Hupsert & Hrest)
                     | (x & _ & [Hbuild | (wa & d & Hbuild & Hupsert)])].
    + apply preserves_build in Hbuild. destruct Hbuild as (Hcoll & _).
      apply Hup in Hupsert. apply IH in Hrest.
      rewrite Hcoll in Hupsert. simpl. lia.
    + apply preserves_build in Hbuild. destruct Hbuild as (Hcoll & _).
      rewrite Hcoll. simpl. lia.
    + apply preserves_build in Hbuild. destruct Hbuild as (Hcoll & _).
      apply Hup in Hupsert. rewrite Hcoll in Hupsert. simpl. lia.
Qed.

(** X9: the count a refresh answers is the number of elements of the
    countries payload, duplicates included, not the number of stored
    documents; the collection never shrinks during a refresh, and grows by
    at most one document per element of the payload. *)
Theorem refresh_counts_the_payload `{RegexEngine} `{PyRepr} e w :
  match refresh_countries e w with
  | (w', Ok r) =>
      exists countries items,
        fetch_countries_data e = Ok countries /\
        Py.iter countries = Ok items /\
        total_countries r = length items /\
        (length (countries_collection w) <= length (countries_collection w'))%nat /\
        (length (countries_collection w') <=
           length (countries_collection w) + length items)%nat
  | (w', Raise _) =>
      (length (countries_collection w) <= length (countries_collection w'))%nat
  end.
Proof.
  destruct (refresh_countries e w) as [w' [r | x]] eqn:Hrun.
  - apply refresh_countries_ok in Hrun. destruct Hrun as (processed & Hbody).
    apply refresh_body_ok in Hbody.
    destruct Hbody as (countries & rates & items & w1 & top &
                       Hc & _ & Hi & Hloop & _ & -> & -> & _).
    exists countries, items. split; [exact Hc |]. split; [exact Hi |].
    destruct (processed_are_built _ _ _ _ _ _ _ Hloop) as [Hlen _].
    apply refresh_loop_growth in Hloop. simpl in Hloop.
    split; [exact Hlen |]. exact Hloop.
  - apply refresh_countries_raise in Hrun. destruct Hrun as (y & Hbody & _).
    apply refresh_body_raise in Hbody.
    destruct Hbody
      as [[-> _]
         | (countries & rates & _ & _ &
            [[-> _] | (items & _ & [Hloop | (w1 & all & Hloop & -> & _)])])].
    + apply Nat.le_refl.
    + apply Nat.le_refl.
    + apply refresh_loop_growth in Hloop. simpl in Hloop. lia.
    + apply refresh_loop_growth in Hloop. simpl in Hloop. simpl. lia.
Qed.

(** ** Identifiers *)

Lemma keeps_ids_refl w : keeps_ids w w.
Proof. intros Hw. split; [exact Hw | apply incl_refl]. Qed.

Lemma keeps_ids_trans w w1 w2 :
  keeps_ids w w1 -> keeps_ids w1 w2 -> keeps_ids w w2.
Proof.
  intros H1 H2 Hw. destruct (H1 Hw) as [Hw1 Hin1].
  destruct (H2 Hw1) as [Hw2 Hin2].
  split; [exact Hw2 | exact (incl_tran Hin1 Hin2)].
Qed.

Lemma keeps_ids_of_equal w w1 :
  countries_collection w1 = countries_collection w ->
  next_oid w1 = next_oid w ->
  keeps_ids w w1.
Proof.
  intros Hcoll Hnext Hw. unfold ids_ok in *. rewrite Hcoll, Hnext.
  split; [exact Hw | apply incl_refl].
Qed.

Lemma keeps_ids_of_same_store w w1 : same_store w w1 -> keeps_ids w w1.
Proof.
  intros (Hcoll & _ & Hnext & _). apply keeps_ids_of_equal; assumption.
Qed.

Lemma keeps_ids_of_upsert `{RegexEngine} pattern d w w1 r :
  update_one_upsert pattern d w = (w1, r) -> keeps_ids w w1.
Proof.
  intros Hrun [Hnodup Hbelow]. apply upsert_oids in Hrun.
  unfold ids_ok. destruct Hrun as [[-> ->] | [-> ->]].
  - split; [split; assumption | apply incl_refl].
  - split; [split |].
    + apply NoDup_app; [exact Hnodup | repeat constructor; intros [] |].
      intros i Hi [<- | []]. rewrite Forall_forall in Hbelow.
      specialize (Hbelow _ Hi). lia.
    + apply Forall_app. split.
      * eapply Forall_impl; [| exact Hbelow]. intros i Hi. simpl in Hi. lia.
      * constructor; [lia | constructor].
    + apply incl_appl. apply incl_refl.
Qed.

Lemma ids_ok_after_delete `{RegexEngine} name w :
  ids_ok w -> ids_ok (fst (delete_country name w)).
Proof.
  intros [Hnodup Hbelow]. unfold delete_country.
  destruct (regex_i (anchored name)) as [m |]; [| split; assumption].
  destruct (find (fun s => field_matches m (stored_name s))
              (countries_collection w)) as [s |] eqn:Hfind.
  - destruct (find_splits _ _ _ Hfind) as (before & after & Hl & Hnone & Hs).
    rewrite Hl, (delete_first_at _ _ _ _ Hnone Hs). unfold ids_ok. simpl.
    rewrite Hl, map_app in Hnodup, Hbelow. simpl in Hnodup, Hbelow.
    rewrite map_app. split.
    + exact (NoDup_remove_1 _ _ _ Hnodup).
    + apply Forall_app in Hbelow. destruct Hbelow as [Hb Ha].
      apply Forall_app. split; [exact Hb |].
      inversion Ha; assumption.
  - rewrite (delete_first_none _ _ Hfind). split; assumption.
Qed.

Lemma keeps_ids_of_refresh `{RegexEngine} `{PyRepr} e w :
  keeps_ids w (fst (refresh_countries e w)).
Proof.
  assert (Hloop : forall rates t items w0 w1 r,
            refresh_loop e rates t items [] w0 = (w1, r) -> keeps_ids w0 w1).
  { intros rates t items w0 w1 r.
    apply (refresh_loop_relates keeps_ids e rates t).
    - exact keeps_ids_refl.
    - exact keeps_ids_trans.
    - exact keeps_ids_of_same_store.
    - intros pattern d wa wb rb. apply keeps_ids_of_upsert. }
  destruct (refresh_countries e w) as [w' [r | x]] eqn:Hrun; simpl.
  - apply refresh_countries_ok in Hrun. destruct Hrun as (processed & Hbody).
    apply refresh_body_ok in Hbody.
    destruct Hbody as (countries & rates & items & w1 & top &
                       _ & _ & _ & Hrun & _ & -> & _ & _).
    apply keeps_ids_trans with w1.
    + apply keeps_ids_trans with (ticked w);
        [apply keeps_ids_of_equal; reflexivity | exact (Hloop _ _ _ _ _ _ Hrun)].
    + apply keeps_ids_of_equal; reflexivity.
  - apply refresh_countries_raise in Hrun. destruct Hrun as (y & Hbody & _).
    apply refresh_body_raise in Hbody.
    destruct Hbody
      as [[-> _]
         | (countries & rates & _ & _ &
            [[-> _] | (items & _ & [Hrun | (w1 & all & Hrun & -> & _)])])].
    + apply keeps_ids_refl.
    + apply keeps_ids_of_equal; reflexivity.
    + apply keeps_ids_trans with (ticked w);
        [apply keeps_ids_of_equal; reflexivity | exact (Hloop _ _ _ _ _ _ Hrun)].
    + apply keeps_ids_trans with w1.
      * apply keeps_ids_trans with (ticked w);
          [apply keeps_ids_of_equal; reflexivity
          | exact (Hloop _ _ _ _ _ _ Hrun)].
      * apply keeps_ids_of_equal; reflexivity.
Qed.

(** X10: when the identifiers of the collection are distinct and all below
    the next one to be issued, they still are after a refresh, whether it
    completes or fails, and after a deletion; and a refresh loses none of
    them: it overwrites documents in place and never removes one. *)
Theorem identifiers_stay_distinct `{RegexEngine} `{PyRepr} e name w :
  ids_ok w ->
  ids_ok (fst (refresh_countries e w)) /\
  incl (map oid (countries_collection w))
       (map oid (countries_collection (fst (refresh_countries e w)))) /\
  ids_ok (fst (delete_country name w)).
Proof.
  intros Hw. destruct (keeps_ids_of_refresh e w Hw) as [Hids Hincl].
  split; [exact Hids |]. split; [exact Hincl |].
  exact (ids_ok_after_delete name w Hw).
Qed.

Lemma sample_store_ids_ok : ids_ok Sample.w_store.
Proof.
  split; simpl.
  - repeat constructor; simpl; intuition discriminate.
  - repeat constructor.
Qed.

Lemma identifiers_stay_distinct_witness :
  ids_ok Sample.w_store /\
  forall R : PyRepr,
    ids_ok (fst (@refresh_countries Pcre.engine R Sample.e_testland
                   Sample.w_store)) /\
    incl (map oid (countries_collection Sample.w_store))
         (map oid (countries_collection
                     (fst (@refresh_countries Pcre.engine R Sample.e_testland
                             Sample.w_store)))) /\
    ids_ok (fst (@delete_country Pcre.engine "chad" Sample.w_store)).
Proof.
  split; [exact sample_store_ids_ok |].
  intros R.
  exact (@identifiers_stay_distinct Pcre.engine R Sample.e_testland "chad"
           Sample.w_store sample_store_ids_ok).
Defined.

(** ** The loop goes through the payload in order *)

Lemma bind_ext {A B} (c : M A) (k k' : A -> M B) w :
  (forall a w0, k a w0 = k' a w0) -> bind c k w = bind c k' w.
Proof.
  intros Hk. unfold bind. destruct (c w) as [w0 [a | x]]; [apply Hk |].
  reflexivity.
Qed.

Lemma bind_assoc {A B C} (c : M A) (k : A -> M B) (k' : B -> M C) w :
  bind (bind c k) k' w = bind c (fun a => bind (k a) k') w.
Proof.
  unfold bind. destruct (c w) as [w0 [a | x]]; reflexivity.
Qed.

(** X11: the loop handles a payload one country after the other, in the
    order of the payload: going through [first ++ second] is going through
    [first] and then, from the world and the records that leaves, through
    [second]; if the first part raises, what it wrote stays and the second
    part is not touched. *)
Theorem refresh_loop_app `{RegexEngine} `{PyRepr} e rates t first second :
  forall processed w,
    refresh_loop e rates t (first ++ second) processed w =
    match refresh_loop e rates t first processed w with
    | (w1, Ok processed1) => refresh_loop e rates t second processed1 w1
    | (w1, Raise x) => (w1, Raise x)
    end.
Proof.
  induction first as [| cd first IH]; intros processed w; [reflexivity |].
  transitivity
    (bind (refresh_loop e rates t (cd :: first) processed)
          (fun processed1 => refresh_loop e rates t second processed1) w);
    [| reflexivity].
  cbn [app refresh_loop].
  rewrite bind_assoc. apply bind_ext. intros d w0.
  rewrite bind_assoc. apply bind_ext. intros key w1.
  rewrite bind_assoc. apply bind_ext. intros u w2.
  apply IH.
Qed.

(** ** An empty payload *)

(** X12: with an empty list of countries (and any object as rates
    payload) the refresh goes through the loop without a write.  When the
    summary is rendered, the refresh completes: it answers the count 0,
    leaves the collection as it is, and still overwrites the marker and the
    artifact, which then shows no country.  When the rendering fails, the
    refresh answers 500, the marker already overwritten. *)
Theorem refresh_of_nothing `{RegexEngine} `{PyRepr}
    rates clock random render w :
  match render (mk_summary 0 (clock (clock_reads w)) []) with
  | None =>
      refresh_countries
        (mk_env (Body (Some (JArr []))) (Body (Some (JObj rates))) clock
           random render) w
      = (published (clock (clock_reads w)) [] [] (ticked w),
         Ok (mk_refresh_response 0 (clock (clock_reads w)))) /\
      countries_collection (published (clock (clock_reads w)) [] [] (ticked w))
        = countries_collection w /\
      get_summary_image (published (clock (clock_reads w)) [] [] (ticked w))
        = Ok (mk_summary 0 (clock (clock_reads w)) [])
  | Some failure =>
      refresh_countries
        (mk_env (Body (Some (JArr []))) (Body (Some (JObj rates))) clock
           random render) w
      = (marked (clock (clock_reads w)) (ticked w),
         Raise (internal_error failure))
  end.
Proof.
  unfold refresh_countries, refresh_body.
  cbv [bind lift ret read_clock set_global_marker generate_summary_image
       fetch_countries_data fetch_exchange_rates restcountries open_er_api
       utcnow rendering Py.iter Py.get refresh_loop top_countries filter
       forallb sorted_desc fold_right firstn length].
  destruct (dict_lookup "rates" rates);
    destruct (render (mk_summary 0 (clock (clock_reads w)) []));
    try reflexivity; repeat split.
Qed.

(** ** Only the first currency counts *)

Lemma derive_of_first e rates c x more w :
  dict_lookup "currencies" c = Some (JArr (x :: more)) ->
  derive_currency_fields e rates (JObj c) w =
  bind (lift (Py.get x "code" JNull))
    (fun currency_code =>
       bind (if Py.truthy currency_code
             then lift (Py.contains currency_code rates)
             else ret false)
         (fun mapped : bool =>
            if mapped
            then
              bind (lift (Py.getitem rates currency_code))
                (fun exchange_rate =>
                   bind (calculate_estimated_gdp e
                           (copied c "population" (JInt 0)) exchange_rate)
                     (fun estimated_gdp =>
                        ret (currency_code, exchange_rate, estimated_gdp)))
            else ret (currency_code, JNull, JInt 0))) w.
Proof.
  intros Hcur. unfold derive_currency_fields.
  unfold bind at 1, lift at 1. simpl Py.get. rewrite Hcur.
  unfold bind at 1. cbn [Py.truthy]. unfold bind at 1, lift at 1.
  cbn [Py.len length Nat.ltb Nat.leb ret].
  unfold bind at 1, lift at 1.
  change (Py.getitem (JArr (x :: more)) (JInt 0))
    with (Py.list_index (x :: more) 0).
  unfold Py.list_index.
  change (0 <? 0)%Z with false.
  cbv beta iota zeta.
  replace ((0 <=? 0)%Z && (0 <? Z.of_nat (length (x :: more)))%Z) with true
    by (symmetry; apply andb_true_iff; split;
        [reflexivity | apply Z.ltb_lt; simpl; lia]).
  change (nth_error (x :: more) (Z.to_nat 0)) with (Some x).
  cbv beta iota.
  apply bind_ext. intros code w0.
  apply bind_ext. intros mapped w1.
  destruct mapped; [| reflexivity].
  apply bind_ext. intros rate w2. reflexivity.
Qed.

(** X13: of the currencies a country lists only the first is used: two raw
    records that agree on their first currency and on their population
    get the same currency code, exchange rate and estimate (for the same
    draw), whatever follows in their lists and whatever their other fields
    are. *)
Theorem only_the_first_currency_counts e rates c1 c2 x more1 more2 w :
  dict_lookup "currencies" c1 = Some (JArr (x :: more1)) ->
  dict_lookup "currencies" c2 = Some (JArr (x :: more2)) ->
  dict_lookup "population" c1 = dict_lookup "population" c2 ->
  derive_currency_fields e rates (JObj c1) w =
  derive_currency_fields e rates (JObj c2) w.
Proof.
  intros H1 H2 Hpop.
  rewrite (derive_of_first e rates c1 x more1 w H1).
  rewrite (derive_of_first e rates c2 x more2 w H2).
  unfold copied. rewrite Hpop. reflexivity.
Qed.

Lemma only_the_first_currency_counts_witness :
  derive_currency_fields Sample.e Sample.rates
    (JObj [("name", JStr "Testland"); ("population", JInt 1000000);
           ("currencies", JArr [JObj [("code", JStr "TST")];
                                JObj [("code", JStr "USD")]])])
    Sample.w =
  derive_currency_fields Sample.e Sample.rates Sample.testland Sample.w.
Proof.
  apply (only_the_first_currency_counts Sample.e Sample.rates _ _
           (JObj [("code", JStr "TST")])
           [JObj [("code", JStr "USD")]] []).
  - reflexivity.
  - reflexivity.
  - reflexivity.
Defined.

(** ** The order of the summary *)









(** ** Two filters at once *)

(** X15: without a sort, a listing by region and currency holds exactly
    the documents that the listing by that region and the listing by that
    currency both hold: the two conditions are conjoined.  The listing
    fails, with the 500 that carries no details, exactly when one of the
    two listings fails, that is, when the store rejects a pattern. *)
Theorem filters_are_conjoined `{RegexEngine} `{CursorSort} region currency w :
  match get_countries region currency None w with
  | Ok listed =>
      exists by_region by_currency,
        get_countries region None None w = Ok by_region /\
        get_countries None currency None w = Ok by_currency /\
        forall s, In s listed <-> In s by_region /\ In s by_currency
  | Raise x =>
      x = opaque_internal_error /\
      (get_countries region None None w = Raise x \/
       get_countries None currency None w = Raise x)
  end.
Proof.
  unfold get_countries.
  change (condition stored_region None) with (Some (@None (stored -> bool))).
  change (condition stored_currency_code None)
    with (Some (@None (stored -> bool))).
  destruct (condition stored_region region) as [a |].
  - destruct (condition stored_currency_code currency) as [b |]; simpl.
    + eexists. eexists. split; [reflexivity |]. split; [reflexivity |].
      intros s. rewrite !filter_In, andb_true_iff, andb_true_r. tauto.
    + split; [reflexivity |]. right. reflexivity.
  - simpl. split; [reflexivity |]. left. reflexivity.
Qed.

(** ** Deleting the only match *)

Lemma count_one_splits {A} (p : A -> bool) l :
  count p l = 1%nat ->
  exists before s after,
    l = before ++ s :: after /\
    Forall (fun x => p x = false) before /\ p s = true /\
    Forall (fun x => p x = false) after.
Proof.
  unfold count. induction l as [| a l IH]; simpl; [discriminate |].
  destruct (p a) eqn:Hpa; simpl; intros Hcount.
  - exists [], a, l. repeat split; [constructor | exact Hpa |].
    injection Hcount as Hcount. apply length_zero_iff_nil in Hcount.
    apply Forall_forall. intros x Hx.
    destruct (p x) eqn:Hpx; [| reflexivity].
    assert (Hin : In x (filter p l)) by (apply filter_In; auto).
    rewrite Hcount in Hin. destruct Hin.
  - destruct (IH Hcount) as (before & s & after & -> & Hb & Hs & Ha).
    exists (a :: before), s, after. repeat split; try assumption.
    constructor; assumption.
Qed.

Lemma find_none_of_all {A} (p : A -> bool) l :
  Forall (fun x => p x = false) l -> find p l = None.
Proof.
  induction 1 as [| a l Ha _ IH]; simpl; [reflexivity |].
  rewrite Ha. exact IH.
Qed.

(** X16: when exactly one stored document matches a name, deleting by that
    name succeeds, and afterwards a lookup and a second deletion by the
    same name both answer 404. *)
Theorem deleted_is_gone `{RegexEngine} name m w :
  regex_i (anchored name) = Some m ->
  count (fun s => field_matches m (stored_name s)) (countries_collection w)
    = 1%nat ->
  exists w',
    delete_country name w = (w', Ok (deleted_message name)) /\
    get_country name w' = Raise not_found /\
    delete_country name w' = (w', Raise not_found).
Proof.
  intros Hm Hone.
  destruct (count_one_splits _ _ Hone)
    as (before & s & after & Hl & Hb & Hs & Ha).
  assert (Hnone : find (fun s => field_matches m (stored_name s))
                    (before ++ after) = None)
    by (apply find_none_of_all; apply Forall_app; split; assumption).
  exists (with_collection (before ++ after) w).
  unfold delete_country, get_country. rewrite Hm. simpl.
  rewrite Hl, (delete_first_at _ _ _ _ Hb Hs), Hnone,
    (delete_first_none _ _ Hnone).
  repeat split.
Qed.

Lemma deleted_is_gone_witness :
  exists w',
    @delete_country Pcre.engine "chad" Sample.w_store
      = (w', Ok (deleted_message "chad")) /\
    @get_country Pcre.engine "chad" w' = Raise not_found /\
    @delete_country Pcre.engine "chad" w' = (w', Raise not_found).
Proof.
  destruct (Pcre.compile (anchored "chad")) as [m |] eqn:Hm;
    [| discriminate Hm].
  apply (@deleted_is_gone Pcre.engine "chad" m Sample.w_store Hm).
  injection Hm as <-. reflexivity.
Defined.

(** ** Records without a name *)

(** X17: a record without a name is upserted under the pattern made of
    [None], which no stored name that is null can match.  Unless a stored
    name matches that pattern, two such records in a row are both appended,
    the second not overwriting the first: nameless records accumulate. *)
Theorem nameless_records_accumulate `{RegexEngine} m d1 d2 w :
  name d1 = JNull ->
  name d2 = JNull ->
  regex_i (anchored "None") = Some m ->
  Forall (fun s => field_matches m (stored_name s) = false)
    (countries_collection w) ->
  (forall R : PyRepr,
     anchored (format_value (name d1)) = anchored "None" /\
     anchored (format_value (name d2)) = anchored "None") /\
  exists w1 w2,
    update_one_upsert (anchored "None") d1 w = (w1, Ok tt) /\
    update_one_upsert (anchored "None") d2 w1 = (w2, Ok tt) /\
    countries_collection w2 =
      countries_collection w ++
      [mk_stored (next_oid w) d1; mk_stored (S (next_oid w)) d2].
Proof.
  intros Hd1 Hd2 Hm Hnone.
  split; [intros R; rewrite Hd1, Hd2; split; reflexivity |].
  assert (Hfirst : set_first (fun s => field_matches m (stored_name s)) d1
                     (countries_collection w) = None)
    by (apply set_first_none; apply find_none_of_all; exact Hnone).
  assert (Hsecond : set_first (fun s => field_matches m (stored_name s)) d2
                      (countries_collection w ++ [mk_stored (next_oid w) d1])
                    = None).
  { apply set_first_none. apply find_none_of_all. apply Forall_app.
    split; [exact Hnone |]. constructor; [| constructor].
    unfold stored_name. simpl. rewrite Hd1. reflexivity. }
  exists (mk_world (countries_collection w ++ [mk_stored (next_oid w) d1])
            (metadata_global w) (S (next_oid w)) (summary_png w)
            (clock_reads w) (uniform_draws w)).
  eexists. unfold update_one_upsert. rewrite Hm, Hfirst. simpl.
  rewrite Hsecond. split; [reflexivity |]. split; [reflexivity |].
  simpl. rewrite <- app_assoc. reflexivity.
Qed.

Lemma nameless_records_accumulate_witness :
  exists w1 w2,
    @update_one_upsert Pcre.engine (anchored "None") Sample.nameless_doc
      Sample.w_store = (w1, Ok tt) /\
    @update_one_upsert Pcre.engine (anchored "None") Sample.nameless_doc w1
      = (w2, Ok tt) /\
    countries_collection w2 =
      countries_collection Sample.w_store ++
      [mk_stored 3 Sample.nameless_doc; mk_stored 4 Sample.nameless_doc].
Proof.
  destruct (Pcre.compile (anchored "None")) as [m |] eqn:Hm;
    [| discriminate Hm].
  assert (Hnone : Forall (fun s => field_matches m (stored_name s) = false)
                    (countries_collection Sample.w_store))
    by (injection Hm as <-; repeat constructor).
  destruct (@nameless_records_accumulate Pcre.engine m Sample.nameless_doc
              Sample.nameless_doc Sample.w_store eq_refl eq_refl Hm Hnone)
    as [_ Hrun].
  exact Hrun.
Defined.
